(** * User management service: handlers over a single users table

    A shallow embedding of [app/api/users.py], [app/core/exceptions.py],
    [app/models/user.py] and the username validators of
    [app/schemas/user.py].

    Modelling choices.
    - A Python [str] is a [string]; each [ascii] stands for one code point
      below U+0100, so the alphanumeric table of [str.isalnum] is written
      out for that range (ASCII and the Latin-1 supplement).
    - The users table is the list of its rows in the order the store scans
      them, which on SQLite is rowid order.  A query is the list of rows it
      selects; [filter], [first], [count], [offset], [limit] and [all] act
      on it.
    - A handler takes the table and returns the table after its commit or
      rollback together with its result: a value, or the exception raised.
    - The store is fault free: a commit raises [IntegrityError] when a
      NOT NULL or UNIQUE constraint is broken and nothing else, so the
      [except Exception] branches of the handlers are never taken.
    - [func.now()] is the store's clock; the handlers that write take its
      reading [now] as an argument.
    - What the handlers rely on in the libraries they call is written out
      where it is used: the unit of work, which writes only the attributes
      whose value changed; the [Enum] column type, which stores the names
      of the members; the rowid SQLite gives a new row; and
      [model_dump(exclude_unset=True)], which tells a field left out from
      a field set to null. *)

From Stdlib Require Import ZArith List String Ascii Bool Lia Sorted DecimalString.
From Stdlib Require Import DecimalPos DecimalZ.
Import ListNotations.

Open Scope string_scope.
Open Scope Z_scope.

(** ** Python strings *)

(** [f"{n}"] for an [int]. *)
Definition str_of_int (n : Z) : string := NilZero.string_of_int (Z.to_int n).

(** [f"{s}"] for an [Optional[str]]: [None] prints as the word None. *)
Definition str_of_optional_str (o : option string) : string :=
  match o with
  | Some s => s
  | None => "None"
  end.

(** [s.replace(c, "")] for a one-character [c]. *)
Fixpoint replace_with_empty (c : ascii) (s : string) : string :=
  match s with
  | EmptyString => EmptyString
  | String a s' =>
      if Ascii.eqb a c then replace_with_empty c s'
      else String a (replace_with_empty c s')
  end.

Fixpoint str_forall (p : ascii -> bool) (s : string) : bool :=
  match s with
  | EmptyString => true
  | String a s' => p a && str_forall p s'
  end.

Definition in_range (lo hi : N) (a : ascii) : bool :=
  (N.leb lo (N_of_ascii a) && N.leb (N_of_ascii a) hi)%bool.

Definition ascii_digit (a : ascii) : bool := in_range 48 57 a.
Definition ascii_upper (a : ascii) : bool := in_range 65 90 a.
Definition ascii_lower (a : ascii) : bool := in_range 97 122 a.

(** The code points of U+0080..U+00FF that Python counts as alphanumeric:
    the letters (feminine and masculine ordinal, micro sign, U+00C0..U+00FF
    without the multiplication and division signs), the superscript digits
    and the vulgar fractions. *)
Definition latin1_alnum (a : ascii) : bool :=
  (in_range 170 170 a || in_range 178 179 a || in_range 181 181 a
   || in_range 185 186 a || in_range 188 190 a
   || in_range 192 214 a || in_range 216 246 a || in_range 248 255 a)%bool.

(** One character of [str.isalnum]. *)
Definition char_isalnum (a : ascii) : bool :=
  (ascii_digit a || ascii_upper a || ascii_lower a || latin1_alnum a)%bool.

(** [s.isalnum()]: false on the empty string. *)
Definition isalnum (s : string) : bool :=
  match s with
  | EmptyString => false
  | _ => str_forall char_isalnum s
  end.

(** ** Results of a handler or validator *)

Inductive ExcClass :=
| HTTPException
| UserNotFoundException_cls
| UserAlreadyExistsException_cls
| RequestValidationError.

Record Exc := mkExc {
  exc_class : ExcClass;
  status_code : Z;
  detail : string
}.

Inductive Result (A : Type) :=
| Ok (a : A)
| Raise (e : Exc).

Arguments Ok {A} a.
Arguments Raise {A} e.

Definition bind {A B : Type} (r : Result A) (k : A -> Result B) : Result B :=
  match r with
  | Ok a => k a
  | Raise e => Raise e
  end.

Notation "x <- r ;; k" := (bind r (fun x => k))
  (at level 61, r at next level, right associativity).

Definition HTTP_404_NOT_FOUND : Z := 404.
Definition HTTP_409_CONFLICT : Z := 409.
Definition HTTP_422_UNPROCESSABLE_ENTITY : Z := 422.

(** ** app/core/exceptions.py *)

(** [if user_id] on an [Optional[int]]: [None] and [0] are both falsy. *)
Definition int_truthy (o : option Z) : bool :=
  match o with
  | Some n => negb (n =? 0)
  | None => false
  end.

Definition str_of_optional_int (o : option Z) : string :=
  match o with
  | Some n => str_of_int n
  | None => "None"
  end.

Definition UserNotFoundException
    (user_id : option Z) (username : option string) : Exc :=
  let identifier :=
    if int_truthy user_id then "id=" ++ str_of_optional_int user_id
    else "username=" ++ str_of_optional_str username in
  let detail := "User with " ++ identifier ++ " not found" in
  mkExc UserNotFoundException_cls HTTP_404_NOT_FOUND detail.

Definition UserAlreadyExistsException (field value : string) : Exc :=
  let detail := "User with " ++ field ++ "='" ++ value ++ "' already exists" in
  mkExc UserAlreadyExistsException_cls HTTP_409_CONFLICT detail.

(** ** app/models/user.py *)

Inductive UserRole := ADMIN | USER | GUEST.

Definition UserRole_eqb (a b : UserRole) : bool :=
  match a, b with
  | ADMIN, ADMIN | USER, USER | GUEST, GUEST => true
  | _, _ => false
  end.

(** The value of a member, which is also what the member is as a [str]. *)
Definition role_value (r : UserRole) : string :=
  match r with
  | ADMIN => "admin"
  | USER => "user"
  | GUEST => "guest"
  end.

(** The name of a member, which is what the [Enum(UserRole)] column stores. *)
Definition role_name (r : UserRole) : string :=
  match r with
  | ADMIN => "ADMIN"
  | USER => "USER"
  | GUEST => "GUEST"
  end.

(** A row of the users table.  Every column is NOT NULL. *)
Module User.
Record t := mk {
  id : Z;
  username : string;
  email : string;
  first_name : string;
  last_name : string;
  role : UserRole;
  active : bool;
  created_at : Z;
  updated_at : Z
}.
End User.

Definition Table := list User.t.

(** ** app/schemas/user.py *)

Definition validation_error : Exc :=
  mkExc RequestValidationError HTTP_422_UNPROCESSABLE_ENTITY "Validation error".

(** [Field(..., min_length=lo, max_length=hi)] on a [str]. *)
Definition Field_str (min_length max_length : nat) (v : string) : Result string :=
  if (String.length v <? min_length)%nat then Raise validation_error
  else if (max_length <? String.length v)%nat then Raise validation_error
  else Ok v.

Module UserBase.
(** [@validator("username")] of [UserBase]. *)
Definition username_alphanumeric (v : string) : Result string :=
  if negb (isalnum (replace_with_empty "_" v)) then Raise validation_error
  else Ok v.

(** The [username] field: its [Field] constraints, then its validator. *)
Definition username (v : string) : Result string :=
  v' <- Field_str 3 50 v ;; username_alphanumeric v'.
End UserBase.

(** A validated create request.  [role] and [active] have had their
    defaults filled in. *)
Module UserCreate.
Record t := mk {
  username : string;
  email : string;
  first_name : string;
  last_name : string;
  role : UserRole;
  active : bool
}.
End UserCreate.

(** A validated update request, read as [model_dump(exclude_unset=True)]
    reads it: a field is [None] when the request left it out and [Some v]
    when the request set it, [v] being the [Optional] value it was set to
    ([Some None] is an explicit null). *)
Module UserUpdate.
Record t := mk {
  username : option (option string);
  email : option (option string);
  first_name : option (option string);
  last_name : option (option string);
  role : option (option UserRole);
  active : option (option bool)
}.

(** [@validator("username")] of [UserUpdate]. *)
Definition username_alphanumeric (v : option string) : Result (option string) :=
  match v with
  | Some s =>
      if negb (isalnum (replace_with_empty "_" s)) then Raise validation_error
      else Ok v
  | None => Ok v
  end.

(** The [username] field of an update: the length constraints apply
    to a string, [None] passes them. *)
Definition username_field (v : option string) : Result (option string) :=
  match v with
  | Some s => _ <- Field_str 3 50 s ;; username_alphanumeric v
  | None => username_alphanumeric v
  end.
End UserUpdate.

Module UserListResponse.
Record t := mk {
  total : Z;
  users : list User.t;
  skip : Z;
  limit : Z
}.
End UserListResponse.

(** ** The query interface of the session *)

Definition first (q : list User.t) : option User.t := hd_error q.
Definition count (q : list User.t) : Z := Z.of_nat (List.length q).
Definition offset (n : Z) (q : list User.t) : list User.t := skipn (Z.to_nat n) q.

(** SQLite reads a negative LIMIT as no limit. *)
Definition limit (n : Z) (q : list User.t) : list User.t :=
  if n <? 0 then q else firstn (Z.to_nat n) q.

Definition all (q : list User.t) : list User.t := q.

(** [column == value] for a string column and an [Optional[str]] value.
    Against [None] it is [column IS NULL], which no row of a NOT NULL
    column satisfies. *)
Definition str_col_eq (col : User.t -> string) (v : option string)
    (u : User.t) : bool :=
  match v with
  | Some s => (col u =? s)%string
  | None => false
  end.

Definition optional_str_eqb (a b : option string) : bool :=
  match a, b with
  | Some x, Some y => (x =? y)%string
  | None, None => true
  | _, _ => false
  end.

Definition optional_role_eqb (a b : option UserRole) : bool :=
  match a, b with
  | Some x, Some y => UserRole_eqb x y
  | None, None => true
  | _, _ => false
  end.

Definition optional_bool_eqb (a b : option bool) : bool :=
  match a, b with
  | Some x, Some y => Bool.eqb x y
  | None, None => true
  | _, _ => false
  end.

Definition UserRole_members : list UserRole := [ADMIN; USER; GUEST].

(** What [Enum(UserRole)] binds for a string compared with the column.
    Its lookup table has the members, which hash and compare as their
    values, and the member names as keys, each mapped to the member's
    name; a string it does not have is bound as it is. *)
Definition _db_value_for_elem (elem : string) : string :=
  match find (fun r => (role_value r =? elem)%string || (role_name r =? elem)%string)%bool
             UserRole_members with
  | Some r => role_name r
  | None => elem
  end.

(** [User.role == role] for a string [role]. *)
Definition role_col_eq (role : string) (u : User.t) : bool :=
  (role_name (User.role u) =? _db_value_for_elem role)%string.

(** [if role] on an [Optional[str]]: [None] and the empty string are falsy. *)
Definition str_truthy (o : option string) : bool :=
  match o with
  | Some EmptyString => false
  | Some _ => true
  | None => false
  end.

(** ** The store: flushing an INSERT or an UPDATE *)

Inductive Flush :=
| Flushed (db : Table) (row : User.t)
| IntegrityError.

(** The rowid SQLite gives an INTEGER PRIMARY KEY row: one more than the
    largest in the table, 1 in an empty table. *)
Definition next_rowid (db : Table) : Z :=
  1 + fold_right (fun u m => Z.max (User.id u) m) 0 db.

Definition taken (col : User.t -> string) (v : string) (db : Table) : bool :=
  existsb (fun u => (col u =? v)%string) db.

(** INSERT of the object built from the dumped request: both timestamps
    are the server default [now()]. *)
Definition flush_insert (now : Z) (user : UserCreate.t) (db : Table) : Flush :=
  if taken User.username (UserCreate.username user) db then IntegrityError
  else if taken User.email (UserCreate.email user) db then IntegrityError
  else
    let row := User.mk (next_rowid db)
                 (UserCreate.username user) (UserCreate.email user)
                 (UserCreate.first_name user) (UserCreate.last_name user)
                 (UserCreate.role user) (UserCreate.active user) now now in
    Flushed (db ++ [row])%list row.

(** The mapped object after the [setattr] loop: the attributes a request
    can set, each possibly [None]. *)
Module Attrs.
Record t := mk {
  username : option string;
  email : option string;
  first_name : option string;
  last_name : option string;
  role : option UserRole;
  active : option bool
}.
End Attrs.

Definition loaded (u : User.t) : Attrs.t :=
  Attrs.mk (Some (User.username u)) (Some (User.email u))
    (Some (User.first_name u)) (Some (User.last_name u))
    (Some (User.role u)) (Some (User.active u)).

Definition setattr {A : Type} (value : option (option A)) (current : option A)
    : option A :=
  match value with
  | Some v => v
  | None => current
  end.

(** [for field, value in update_data.items(): setattr(db_user, field, value)] *)
Definition setattrs (update_data : UserUpdate.t) (o : Attrs.t) : Attrs.t :=
  Attrs.mk
    (setattr (UserUpdate.username update_data) (Attrs.username o))
    (setattr (UserUpdate.email update_data) (Attrs.email o))
    (setattr (UserUpdate.first_name update_data) (Attrs.first_name o))
    (setattr (UserUpdate.last_name update_data) (Attrs.last_name o))
    (setattr (UserUpdate.role update_data) (Attrs.role o))
    (setattr (UserUpdate.active update_data) (Attrs.active o)).

(** The unit of work writes an attribute only when its value differs from
    the loaded one. *)
Definition unmodified (u : User.t) (o : Attrs.t) : bool :=
  (optional_str_eqb (Attrs.username o) (Some (User.username u))
   && optional_str_eqb (Attrs.email o) (Some (User.email u))
   && optional_str_eqb (Attrs.first_name o) (Some (User.first_name u))
   && optional_str_eqb (Attrs.last_name o) (Some (User.last_name u))
   && optional_role_eqb (Attrs.role o) (Some (User.role u))
   && optional_bool_eqb (Attrs.active o) (Some (User.active u)))%bool.

(** The row an UPDATE of [u] to the attributes [o] leaves, with
    [onupdate=now()] applied; [None] when an attribute is NULL. *)
Definition updated_row (now : Z) (u : User.t) (o : Attrs.t) : option User.t :=
  match Attrs.username o, Attrs.email o, Attrs.first_name o,
        Attrs.last_name o, Attrs.role o, Attrs.active o with
  | Some un, Some em, Some fn, Some ln, Some ro, Some ac =>
      Some (User.mk (User.id u) un em fn ln ro ac (User.created_at u) now)
  | _, _, _, _, _, _ => None
  end.

Definition others (u : User.t) (db : Table) : Table :=
  filter (fun r => negb (User.id r =? User.id u)) db.

(** A UNIQUE column is checked against the other rows when it is written. *)
Definition unique_broken (col : User.t -> string) (u row : User.t)
    (db : Table) : bool :=
  (negb (col row =? col u)%string && taken col (col row) (others u db))%bool.

Definition replace_row (row : User.t) (db : Table) : Table :=
  map (fun r => if User.id r =? User.id row then row else r) db.

(** Commit and refresh of the object loaded as [u], now holding [o].
    Nothing is written when no attribute changed; otherwise one UPDATE
    of the row, refused when it would store a NULL or a duplicate. *)
Definition flush_update (now : Z) (u : User.t) (o : Attrs.t) (db : Table) : Flush :=
  if unmodified u o then Flushed db u
  else
    match updated_row now u o with
    | None => IntegrityError
    | Some row =>
        if unique_broken User.username u row db then IntegrityError
        else if unique_broken User.email u row db then IntegrityError
        else Flushed (replace_row row db) row
    end.

(** DELETE of the row with the primary key of [u]. *)
Definition flush_delete (u : User.t) (db : Table) : Table := others u db.

(** ** app/api/users.py *)

Definition create_conflict : Exc :=
  mkExc HTTPException HTTP_409_CONFLICT
    "User creation failed due to data constraint violation".

Definition update_conflict : Exc :=
  mkExc HTTPException HTTP_409_CONFLICT
    "User update failed due to data constraint violation".

Definition create_user (now : Z) (user : UserCreate.t) (db : Table)
    : Table * Result User.t :=
  let existing_user :=
    first (filter (str_col_eq User.username (Some (UserCreate.username user))) db) in
  match existing_user with
  | Some _ =>
      (db, Raise (UserAlreadyExistsException "username" (UserCreate.username user)))
  | None =>
      let existing_user :=
        first (filter (str_col_eq User.email (Some (UserCreate.email user))) db) in
      match existing_user with
      | Some _ =>
          (db, Raise (UserAlreadyExistsException "email" (UserCreate.email user)))
      | None =>
          match flush_insert now user db with
          | Flushed db' db_user => (db', Ok db_user)
          | IntegrityError => (db, Raise create_conflict)
          end
      end
  end.

Definition get_users (skip limit_ : Z) (active : option bool)
    (role : option string) (db : Table) : UserListResponse.t :=
  let query := db in
  let query :=
    match active with
    | Some a => filter (fun u => Bool.eqb (User.active u) a) query
    | None => query
    end in
  let query :=
    if str_truthy role
    then filter (role_col_eq (str_of_optional_str role)) query
    else query in
  let total := count query in
  let users := all (limit limit_ (offset skip query)) in
  UserListResponse.mk total users skip limit_.

(** [Query(default, ge=..., le=...)] on an integer query parameter. *)
Definition Query_int (default : Z) (ge le : option Z) (raw : option Z) : Result Z :=
  match raw with
  | None => Ok default
  | Some n =>
      if match ge with Some lo => n <? lo | None => false end
      then Raise validation_error
      else if match le with Some hi => hi <? n | None => false end
      then Raise validation_error
      else Ok n
  end.

(** The list route: the declared parameters, then the handler.  [active]
    and [role] are declared with no constraint. *)
Definition get_users_route (skip limit_ : option Z) (active : option bool)
    (role : option string) (db : Table) : Result UserListResponse.t :=
  skip' <- Query_int 0 (Some 0) None skip ;;
  limit' <- Query_int 100 (Some 1) (Some 1000) limit_ ;;
  Ok (get_users skip' limit' active role db).

Definition get_user (user_id : Z) (db : Table) : Result User.t :=
  let user := first (filter (fun u => User.id u =? user_id) db) in
  match user with
  | None => Raise (UserNotFoundException (Some user_id) None)
  | Some user => Ok user
  end.

Definition update_user (now : Z) (user_id : Z) (user_update : UserUpdate.t)
    (db : Table) : Table * Result User.t :=
  match first (filter (fun u => User.id u =? user_id) db) with
  | None => (db, Raise (UserNotFoundException (Some user_id) None))
  | Some db_user =>
      let update_data := user_update in
      let prechecks : Result unit :=
        _ <- match UserUpdate.username update_data with
             | Some v =>
                 if negb (optional_str_eqb v (Some (User.username db_user)))
                 then
                   match first (filter (str_col_eq User.username v) db) with
                   | Some _ =>
                       Raise (UserAlreadyExistsException "username"
                                (str_of_optional_str v))
                   | None => Ok tt
                   end
                 else Ok tt
             | None => Ok tt
             end ;;
        match UserUpdate.email update_data with
        | Some v =>
            if negb (optional_str_eqb v (Some (User.email db_user)))
            then
              match first (filter (str_col_eq User.email v) db) with
              | Some _ =>
                  Raise (UserAlreadyExistsException "email"
                           (str_of_optional_str v))
              | None => Ok tt
              end
            else Ok tt
        | None => Ok tt
        end in
      match prechecks with
      | Raise e => (db, Raise e)
      | Ok _ =>
          match flush_update now db_user (setattrs update_data (loaded db_user)) db with
          | Flushed db' db_user' => (db', Ok db_user')
          | IntegrityError => (db, Raise update_conflict)
          end
      end
  end.

Definition delete_user (user_id : Z) (db : Table) : Table * Result unit :=
  match first (filter (fun u => User.id u =? user_id) db) with
  | None => (db, Raise (UserNotFoundException (Some user_id) None))
  | Some db_user => (flush_delete db_user db, Ok tt)
  end.

(** ** Sample data of the tests *)

Definition john : User.t :=
  User.mk 1 "john_doe" "john.doe@example.com" "John" "Doe" USER true 100 100.

Definition jane : User.t :=
  User.mk 2 "jane_smith" "jane.smith@example.com" "Jane" "Smith" ADMIN true 101 101.

Definition multiple_users : Table := [john; jane].

Definition no_update : UserUpdate.t :=
  UserUpdate.mk None None None None None None.

(** The partial update of the tests, and the row it leaves when the
    clock reads 200. *)
Definition new_first_name : UserUpdate.t :=
  UserUpdate.mk None None (Some (Some "NewName")) None None None.

(** The same update, sent with the username the row already has. *)
Definition own_username_new_first_name : UserUpdate.t :=
  UserUpdate.mk (Some (Some "john_doe")) None (Some (Some "NewName"))
    None None None.

Definition john_renamed : User.t :=
  User.mk 1 "john_doe" "john.doe@example.com" "NewName" "Doe" USER true 100 200.

(** ** Vocabulary of the properties *)

(** The order of two rows by id. *)
Definition id_lt (a b : User.t) : Prop := User.id a < User.id b.

(** Rows in ascending order of positive ids, no two with the same username
    and no two with the same email. *)
Record wf (db : Table) : Prop := {
  wf_sorted : StronglySorted id_lt db;
  wf_positive : Forall (fun u => 0 < User.id u) db;
  wf_usernames : NoDup (map User.username db);
  wf_emails : NoDup (map User.email db)
}.

(** The tables the service can hold: the empty one, and what a handler
    that writes leaves of one. *)
Inductive reachable : Table -> Prop :=
| reach_empty : reachable []
| reach_create now user db :
    reachable db -> reachable (fst (create_user now user db))
| reach_update now user_id user_update db :
    reachable db -> reachable (fst (update_user now user_id user_update db))
| reach_delete user_id db :
    reachable db -> reachable (fst (delete_user user_id db)).

(** The two filters of a list request as one predicate on a row. *)
Definition matches (active : option bool) (role : option string)
    (u : User.t) : bool :=
  (match active with
   | Some a => Bool.eqb (User.active u) a
   | None => true
   end
   &&
   match role with
   | Some (String c s) => role_col_eq (String c s) u
   | _ => true
   end)%bool.

(** The value a query parameter takes: the one given, or the default. *)
Definition effective (default : Z) (raw : option Z) : Z :=
  match raw with
  | Some n => n
  | None => default
  end.

(** What the list route asks of [skip]: not negative. *)
Definition skip_valid (raw : option Z) : Prop :=
  match raw with
  | Some n => 0 <= n
  | None => True
  end.

(** What the list route asks of [limit]: from 1 to 1000. *)
Definition limit_valid (raw : option Z) : Prop :=
  match raw with
  | Some n => 1 <= n <= 1000
  | None => True
  end.

(** One of the two pre-checks of [update_user], for the column [col]. *)
Definition precheck (field : string) (col : User.t -> string)
    (value : option (option string)) (db_user : User.t) (db : Table)
    : Result unit :=
  match value with
  | Some v =>
      if negb (optional_str_eqb v (Some (col db_user)))
      then
        match first (filter (str_col_eq col v) db) with
        | Some _ => Raise (UserAlreadyExistsException field (str_of_optional_str v))
        | None => Ok tt
        end
      else Ok tt
  | None => Ok tt
  end.

(** A value supplied for a UNIQUE column that the store will take: the
    current value of the row, or a value that no row has. *)
Definition storable (col : User.t -> string) (old : User.t) (db : Table)
    (value : option (option string)) : Prop :=
  match value with
  | None => True
  | Some None => False
  | Some (Some v) => v = col old \/ forall u, In u db -> col u <> v
  end.

(** A field that is not an explicit null. *)
Definition not_null {A : Type} (value : option (option A)) : Prop :=
  value <> Some None.

(** What a request field does to a column: a supplied field holds the
    value the column ends with, an omitted one leaves the column alone. *)
Definition field_after {A : Type} (value : option (option A)) (old new : A)
    : Prop :=
  match value with
  | Some v => v = Some new
  | None => new = old
  end.

(** What a successful update of the row [old] leaves: the row returned
    holds in each column the value supplied for it, or the prior value
    when none was; it keeps the id and the creation time; it is the row
    stored under the id; and the rows with another id are the ones there
    were. *)
Definition stored_as_supplied (user_id : Z) (upd : UserUpdate.t)
    (db db' : Table) (old row : User.t) : Prop :=
  field_after (UserUpdate.username upd) (User.username old) (User.username row) /\
  field_after (UserUpdate.email upd) (User.email old) (User.email row) /\
  field_after (UserUpdate.first_name upd) (User.first_name old) (User.first_name row) /\
  field_after (UserUpdate.last_name upd) (User.last_name old) (User.last_name row) /\
  field_after (UserUpdate.role upd) (User.role old) (User.role row) /\
  field_after (UserUpdate.active upd) (User.active old) (User.active row) /\
  User.id row = User.id old /\
  User.created_at row = User.created_at old /\
  get_user user_id db' = Ok row /\
  (forall r, User.id r <> user_id -> (In r db' <-> In r db)).

(** Whether a supplied field differs from the stored value. *)
Definition differs {A : Type} (eqb : option A -> option A -> bool)
    (value : option (option A)) (old : A) : bool :=
  match value with
  | Some v => negb (eqb v (Some old))
  | None => false
  end.

(** Whether a request changes the value of some column of a row. *)
Definition changes_row (upd : UserUpdate.t) (old : User.t) : bool :=
  (differs optional_str_eqb (UserUpdate.username upd) (User.username old)
   || differs optional_str_eqb (UserUpdate.email upd) (User.email old)
   || differs optional_str_eqb (UserUpdate.first_name upd) (User.first_name old)
   || differs optional_str_eqb (UserUpdate.last_name upd) (User.last_name old)
   || differs optional_role_eqb (UserUpdate.role upd) (User.role old)
   || differs optional_bool_eqb (UserUpdate.active upd) (User.active old))%bool.

(** The claim of C8 read on the model: every successful update, made when
    the clock is past the row's [updated_at], leaves a later [updated_at]. *)
Definition every_update_refreshes : Prop :=
  forall now user_id upd db db' old row,
    get_user user_id db = Ok old ->
    User.updated_at old < now ->
    update_user now user_id upd db = (db', Ok row) ->
    User.updated_at old < User.updated_at row.

(** A letter of the ASCII alphabet, an ASCII digit or the underscore. *)
Definition regex_char (a : ascii) : bool :=
  (ascii_upper a || ascii_lower a || ascii_digit a || Ascii.eqb a "_")%bool.

(** The language of the regular expression [^[A-Za-z0-9_]{3,50}$]. *)
Definition username_regex (s : string) : bool :=
  ((3 <=? String.length s)%nat && (String.length s <=? 50)%nat
   && str_forall regex_char s)%bool.

(** What the validators let through, one character at a time. *)
Definition username_char (a : ascii) : bool :=
  (Ascii.eqb a "_" || char_isalnum a)%bool.

(** The length constraints of the [username] field. *)
Definition length_ok (s : string) : bool :=
  ((3 <=? String.length s)%nat && (String.length s <=? 50)%nat)%bool.

(** A code point below U+0080. *)
Definition is_ascii (a : ascii) : bool := N.ltb (N_of_ascii a) 128.

(** The name Andre spelt with an acute accent: its last letter is the
    code point U+00E9. *)
Definition andre : string := "andr" ++ String "233" "".

(** ** The name fields of app/schemas/user.py *)

(** One character of [str.isspace], for the code points below U+0100:
    the ASCII whitespace and separators, NEL and the no-break space. *)
Definition char_isspace (a : ascii) : bool :=
  (in_range 9 13 a || in_range 28 32 a || in_range 133 133 a
   || in_range 160 160 a)%bool.

(** [s.lstrip()] *)
Fixpoint lstrip (s : string) : string :=
  match s with
  | EmptyString => EmptyString
  | String a s' => if char_isspace a then lstrip s' else s
  end.

(** [s.rstrip()] *)
Fixpoint rstrip (s : string) : string :=
  match s with
  | EmptyString => EmptyString
  | String a s' =>
      match rstrip s' with
      | EmptyString => if char_isspace a then EmptyString else String a EmptyString
      | r => String a r
      end
  end.

(** [s.strip()] *)
Definition strip (s : string) : string := rstrip (lstrip s).

(** The truth value of a [str]: false on the empty string. *)
Definition str_nonempty (s : string) : bool :=
  match s with
  | EmptyString => false
  | _ => true
  end.

(** [@validator("first_name", "last_name")] of [UserBase]. *)
Definition UserBase_name_not_empty (v : string) : Result string :=
  if negb (str_nonempty (strip v)) then Raise validation_error
  else Ok (strip v).

(** The [first_name] and [last_name] fields of [UserBase]: the [Field]
    constraints on the value as sent, then the validator. *)
Definition UserBase_name (v : string) : Result string :=
  v' <- Field_str 1 50 v ;; UserBase_name_not_empty v'.

(** [@validator("first_name", "last_name")] of [UserUpdate]. *)
Definition UserUpdate_name_not_empty (v : option string)
    : Result (option string) :=
  match v with
  | Some s =>
      if negb (str_nonempty (strip s)) then Raise validation_error
      else Ok (if str_nonempty s then Some (strip s) else v)
  | None => Ok v
  end.

(** The [first_name] and [last_name] fields of [UserUpdate]. *)
Definition UserUpdate_name (v : option string) : Result (option string) :=
  match v with
  | Some s => _ <- Field_str 1 50 s ;; UserUpdate_name_not_empty v
  | None => UserUpdate_name_not_empty v
  end.

(** The first and the last character of a string. *)
Definition str_head (s : string) : option ascii :=
  match s with
  | EmptyString => None
  | String a _ => Some a
  end.

Fixpoint str_last (s : string) : option ascii :=
  match s with
  | EmptyString => None
  | String a EmptyString => Some a
  | String _ s' => str_last s'
  end.

(** A character other than whitespace, when there is one. *)
Definition not_space (o : option ascii) : Prop :=
  match o with
  | Some a => char_isspace a = false
  | None => False
  end.

(** A request field that is an explicit null. *)
Definition is_null {A : Type} (value : option (option A)) : bool :=
  match value with
  | Some None => true
  | _ => false
  end.

(** Whether an update request sets some field to null. *)
Definition has_null (upd : UserUpdate.t) : bool :=
  (is_null (UserUpdate.username upd) || is_null (UserUpdate.email upd)
   || is_null (UserUpdate.first_name upd) || is_null (UserUpdate.last_name upd)
   || is_null (UserUpdate.role upd) || is_null (UserUpdate.active upd))%bool.

(** The tables the service can hold when the clock never goes back:
    [history t db] says that [db] is what the writing handlers have left
    after readings of the clock that rose up to [t]. *)
Inductive history : Z -> Table -> Prop :=
| hist_empty t : history t []
| hist_create t now user db :
    history t db -> t <= now ->
    history now (fst (create_user now user db))
| hist_update t now user_id user_update db :
    history t db -> t <= now ->
    history now (fst (update_user now user_id user_update db))
| hist_delete t user_id db :
    history t db -> history t (fst (delete_user user_id db)).

(** The timestamps of a row, in order and not past the clock. *)
Definition timestamps_ordered (t : Z) (u : User.t) : Prop :=
  User.created_at u <= User.updated_at u /\ User.updated_at u <= t.

(** * Properties *)

(** ** Queries as lists *)

Section QueryFacts.
Variable p : User.t -> bool.

Lemma first_filter_In (q : list User.t) (u : User.t) :
  first (filter p q) = Some u -> In u q /\ p u = true.
Proof.
  unfold first. induction q as [|r q IH]; simpl; [discriminate|].
  destruct (p r) eqn:Hr; simpl.
  - intros [= <-]. auto.
  - intros H. destruct (IH H). auto.
Qed.

Lemma first_filter_None (q : list User.t) :
  first (filter p q) = None <-> forall u, In u q -> p u = false.
Proof.
  unfold first. induction q as [|r q IH]; simpl.
  - split; [intros _ u []|reflexivity].
  - destruct (p r) eqn:Hr; simpl.
    + split; [discriminate|]. intros H.
      specialize (H r (or_introl eq_refl)). congruence.
    + rewrite IH. split.
      * intros H u [<-|Hu]; auto.
      * intros H u Hu. apply H. now right.
Qed.

Lemma first_filter_Some_of_In (q : list User.t) (u : User.t) :
  In u q -> p u = true -> exists r, first (filter p q) = Some r.
Proof.
  intros Hu Hp. destruct (first (filter p q)) as [r|] eqn:E; [now exists r|].
  rewrite first_filter_None in E. rewrite (E u Hu) in Hp. discriminate.
Qed.

Lemma filter_all (q : list User.t) :
  (forall u, In u q -> p u = true) -> filter p q = q.
Proof.
  induction q as [|r q IH]; simpl; intros H; [reflexivity|].
  rewrite (H r (or_introl eq_refl)). f_equal. apply IH.
  intros u Hu. apply H. now right.
Qed.

Lemma filter_none (q : list User.t) :
  (forall u, In u q -> p u = false) -> filter p q = [].
Proof.
  induction q as [|r q IH]; simpl; intros H; [reflexivity|].
  rewrite (H r (or_introl eq_refl)). apply IH.
  intros u Hu. apply H. now right.
Qed.
End QueryFacts.

Lemma taken_true (col : User.t -> string) (v : string) (db : Table) :
  taken col v db = true <-> exists u, In u db /\ col u = v.
Proof.
  unfold taken. rewrite existsb_exists.
  split; intros [u [Hu E]]; exists u; split; auto.
  - now apply String.eqb_eq.
  - now apply String.eqb_eq.
Qed.

Lemma taken_false (col : User.t -> string) (v : string) (db : Table) :
  taken col v db = false <-> ~ In v (map col db).
Proof.
  rewrite <- not_true_iff_false, taken_true, in_map_iff.
  split; intros H [u Hu]; apply H; exists u; tauto.
Qed.

Lemma first_str_col_eq_None (col : User.t -> string) (v : string) (db : Table) :
  first (filter (str_col_eq col (Some v)) db) = None <-> taken col v db = false.
Proof.
  rewrite first_filter_None, taken_false, in_map_iff. unfold str_col_eq.
  split.
  - intros H [u [E Hu]]. specialize (H u Hu). apply String.eqb_neq in H. auto.
  - intros H u Hu. apply String.eqb_neq. intros E. apply H. now exists u.
Qed.

(** ** Sorted lists of rows *)

Lemma sorted_filter (p : User.t -> bool) (q : list User.t) :
  StronglySorted id_lt q -> StronglySorted id_lt (filter p q).
Proof.
  induction 1 as [|r q Hq IH Hr]; simpl; [constructor|].
  destruct (p r); [|exact IH].
  constructor; [exact IH|].
  rewrite Forall_forall in *. intros u Hu.
  apply filter_In in Hu. now apply Hr.
Qed.


Lemma In_firstn_rows (n : nat) (q : list User.t) (u : User.t) :
  In u (firstn n q) -> In u q.
Proof.
  revert q. induction n as [|n IH]; intros [|r q]; simpl; try tauto.
  intros [E|H]; [now left|right; now apply IH].
Qed.


Lemma sorted_snoc (q : list User.t) (r : User.t) :
  StronglySorted id_lt q -> Forall (fun u => id_lt u r) q ->
  StronglySorted id_lt (q ++ [r]).
Proof.
  induction 1 as [|a q Hq IH Ha]; intros Hr; simpl.
  - repeat constructor.
  - inversion Hr as [|? ? Har Hr']; subst.
    constructor; [now apply IH|].
    apply Forall_app. split; [exact Ha|]. now constructor.
Qed.

Lemma sorted_ids_differ (q1 q2 : list User.t) (u r : User.t) :
  StronglySorted id_lt (q1 ++ u :: q2) -> In r (q1 ++ q2) ->
  User.id r <> User.id u.
Proof.
  induction q1 as [|a q1 IH]; simpl; intros Hs Hr.
  - inversion Hs as [|? ? _ Hu]; subst.
    rewrite Forall_forall in Hu. specialize (Hu r Hr). unfold id_lt in Hu. lia.
  - inversion Hs as [|? ? Hs' Ha]; subst.
    destruct Hr as [<-|Hr]; [|now apply IH].
    rewrite Forall_forall in Ha.
    assert (Hu : In u (q1 ++ u :: q2)) by (apply in_elt).
    specialize (Ha u Hu). unfold id_lt in Ha. lia.
Qed.

Lemma next_rowid_above (db : Table) :
  Forall (fun u => User.id u < next_rowid db) db /\ 0 < next_rowid db.
Proof.
  unfold next_rowid. induction db as [|r db [IH1 IH2]]; cbn [fold_right].
  - split; [constructor|lia].
  - split; [|lia]. constructor; [lia|].
    eapply Forall_impl; [|exact IH1]. cbv beta. intros u Hu. lia.
Qed.

(** ** The invariant of the table *)

Lemma row_split (db : Table) (u : User.t) :
  StronglySorted id_lt db -> In u db ->
  exists q1 q2,
    db = (q1 ++ u :: q2)%list /\
    others u db = (q1 ++ q2)%list /\
    forall row, User.id row = User.id u ->
                replace_row row db = (q1 ++ row :: q2)%list.
Proof.
  intros Hs Hu. destruct (in_split _ _ Hu) as [q1 [q2 ->]].
  exists q1, q2. split; [reflexivity|].
  assert (Hd : forall r, In r (q1 ++ q2)%list -> User.id r <> User.id u)
    by (intros r; now apply sorted_ids_differ).
  assert (H1 : forall r, In r q1 -> User.id r <> User.id u)
    by (intros r Hr; apply Hd, in_or_app; now left).
  assert (H2 : forall r, In r q2 -> User.id r <> User.id u)
    by (intros r Hr; apply Hd, in_or_app; now right).
  split.
  - unfold others. rewrite filter_app. cbn [filter].
    rewrite Z.eqb_refl. cbn [negb].
    rewrite !filter_all; [reflexivity| |];
      intros r Hr; apply negb_true_iff, Z.eqb_neq; auto.
  - intros row E. unfold replace_row. rewrite map_app. cbn [map].
    rewrite E, Z.eqb_refl. f_equal; [|f_equal].
    + rewrite <- (map_id q1) at 2. apply map_ext_in. intros r Hr.
      destruct (Z.eqb_spec (User.id r) (User.id u)); [|reflexivity].
      now destruct (H1 r Hr).
    + rewrite <- (map_id q2) at 2. apply map_ext_in. intros r Hr.
      destruct (Z.eqb_spec (User.id r) (User.id u)); [|reflexivity].
      now destruct (H2 r Hr).
Qed.

Lemma NoDup_replace (col : User.t -> string) (q1 q2 : list User.t)
    (u row : User.t) :
  NoDup (map col (q1 ++ u :: q2)) ->
  col row = col u \/ ~ In (col row) (map col (q1 ++ q2)) ->
  NoDup (map col (q1 ++ row :: q2)).
Proof.
  rewrite !map_app. cbn [map]. intros Hn [E|Hfree].
  - now rewrite E.
  - apply NoDup_remove_1 in Hn.
    apply (NoDup_Add (Add_app (col row) (map col q1) (map col q2))).
    split; [exact Hn|exact Hfree].
Qed.

Lemma unique_broken_false (col : User.t -> string) (u row : User.t) (db : Table) :
  unique_broken col u row db = false ->
  col row = col u \/ ~ In (col row) (map col (others u db)).
Proof.
  unfold unique_broken. intros H. apply andb_false_iff in H.
  destruct H as [H|H].
  - left. apply negb_false_iff in H. now apply String.eqb_eq.
  - right. now apply taken_false.
Qed.

Lemma NoDup_map_filter (col : User.t -> string) (p : User.t -> bool)
    (q : list User.t) :
  NoDup (map col q) -> NoDup (map col (filter p q)).
Proof.
  induction q as [|r q IH]; simpl; intros Hn; [constructor|].
  inversion Hn as [|? ? Hr Hq]; subst.
  destruct (p r); simpl; [|now apply IH].
  constructor; [|now apply IH].
  rewrite in_map_iff in *. intros [x [E Hx]]. apply Hr.
  exists x. split; [exact E|]. now apply filter_In in Hx.
Qed.

Lemma updated_row_id (now : Z) (u row : User.t) (o : Attrs.t) :
  updated_row now u o = Some row ->
  User.id row = User.id u /\ User.created_at row = User.created_at u /\
  User.updated_at row = now.
Proof.
  unfold updated_row.
  destruct (Attrs.username o), (Attrs.email o), (Attrs.first_name o),
    (Attrs.last_name o), (Attrs.role o), (Attrs.active o); try discriminate.
  intros [= <-]. auto.
Qed.

Lemma wf_empty : wf [].
Proof. split; constructor. Qed.

Lemma wf_flush_insert (now : Z) (user : UserCreate.t) (db db' : Table)
    (row : User.t) :
  wf db -> flush_insert now user db = Flushed db' row -> wf db'.
Proof.
  intros [Hs Hp Hu He]. unfold flush_insert.
  destruct (taken User.username _ db) eqn:Tu; [discriminate|].
  destruct (taken User.email _ db) eqn:Te; [discriminate|].
  intros [= <- <-]. destruct (next_rowid_above db) as [Habove Hpos].
  split.
  - apply sorted_snoc; [exact Hs|exact Habove].
  - apply Forall_app. split; [exact Hp|]. repeat constructor. exact Hpos.
  - rewrite map_app. cbn [map User.username].
    apply (NoDup_Add (Add_app _ (map User.username db) [])).
    rewrite app_nil_r. split; [exact Hu|]. now apply taken_false.
  - rewrite map_app. cbn [map User.email].
    apply (NoDup_Add (Add_app _ (map User.email db) [])).
    rewrite app_nil_r. split; [exact He|]. now apply taken_false.
Qed.

Lemma wf_flush_update (now : Z) (u row : User.t) (o : Attrs.t) (db db' : Table) :
  wf db -> In u db -> flush_update now u o db = Flushed db' row -> wf db'.
Proof.
  intros Hwf Hin. unfold flush_update.
  destruct (unmodified u o); [now intros [= <- <-]|].
  destruct (updated_row now u o) as [r|] eqn:Er; [|discriminate].
  destruct (unique_broken User.username u r db) eqn:Bu; [discriminate|].
  destruct (unique_broken User.email u r db) eqn:Be; [discriminate|].
  intros [= <- <-]. destruct Hwf as [Hs Hp Hu He].
  destruct (updated_row_id _ _ _ _ Er) as [Eid _].
  destruct (row_split db u Hs Hin) as [q1 [q2 [Edb [Eo Erep]]]].
  apply unique_broken_false in Bu, Be. rewrite Eo in Bu, Be.
  rewrite (Erep r Eid). rewrite Edb in Hs, Hp, Hu, He.
  split.
  - clear - Hs Eid. induction q1 as [|a q1 IH]; simpl in *.
    + inversion Hs as [|? ? Hq Hr]; subst. constructor; [exact Hq|].
      eapply Forall_impl; [|exact Hr]. unfold id_lt. intros x Hx. lia.
    + inversion Hs as [|? ? Hq Ha]; subst. constructor; [now apply IH|].
      rewrite Forall_forall in *. intros x Hx.
      apply in_app_or in Hx. destruct Hx as [Hx|[<-|Hx]].
      * apply Ha, in_or_app. now left.
      * unfold id_lt. rewrite Eid. apply (Ha u), in_elt.
      * apply Ha, in_or_app. right. now right.
  - rewrite Forall_app in *. destruct Hp as [Hp1 Hp2]. split; [exact Hp1|].
    inversion Hp2; subst. constructor; [lia|assumption].
  - now apply NoDup_replace with (u := u).
  - now apply NoDup_replace with (u := u).
Qed.

Lemma wf_flush_delete (u : User.t) (db : Table) :
  wf db -> wf (flush_delete u db).
Proof.
  intros [Hs Hp Hu He]. unfold flush_delete, others. split.
  - now apply sorted_filter.
  - rewrite Forall_forall in *. intros x Hx. apply filter_In in Hx. now apply Hp.
  - now apply NoDup_map_filter.
  - now apply NoDup_map_filter.
Qed.

(** Every handler keeps the invariant. *)
Lemma wf_create_user (now : Z) (user : UserCreate.t) (db : Table) :
  wf db -> wf (fst (create_user now user db)).
Proof.
  intros Hwf. unfold create_user.
  destruct (first (filter (str_col_eq User.username _) db)); [exact Hwf|].
  destruct (first (filter (str_col_eq User.email _) db)); [exact Hwf|].
  destruct (flush_insert now user db) as [db' row|] eqn:E; [|exact Hwf].
  simpl. eapply wf_flush_insert; eauto.
Qed.

Lemma wf_update_user (now user_id : Z) (user_update : UserUpdate.t) (db : Table) :
  wf db -> wf (fst (update_user now user_id user_update db)).
Proof.
  intros Hwf. unfold update_user.
  destruct (first (filter _ db)) as [u|] eqn:Eu; [|exact Hwf].
  apply first_filter_In in Eu. destruct Eu as [Hin _].
  match goal with |- context [match ?c with Ok _ => _ | Raise _ => _ end] =>
    destruct c end; [|exact Hwf].
  destruct (flush_update _ _ _ _) as [db' row|] eqn:E; [|exact Hwf].
  simpl. eapply wf_flush_update; eauto.
Qed.

Lemma wf_delete_user (user_id : Z) (db : Table) :
  wf db -> wf (fst (delete_user user_id db)).
Proof.
  intros Hwf. unfold delete_user.
  destruct (first (filter _ db)) as [u|]; [|exact Hwf].
  simpl. now apply wf_flush_delete.
Qed.

Lemma reachable_wf (db : Table) : reachable db -> wf db.
Proof.
  induction 1 as [|now user db _ IH|now user_id upd db _ IH|user_id db _ IH].
  - exact wf_empty.
  - now apply wf_create_user.
  - now apply wf_update_user.
  - now apply wf_delete_user.
Qed.

Lemma wf_multiple_users : wf multiple_users.
Proof.
  split.
  - repeat constructor.
  - repeat constructor.
  - repeat constructor; simpl; intuition discriminate.
  - repeat constructor; simpl; intuition discriminate.
Qed.

(** ** Get by id *)

Lemma get_user_absent (user_id : Z) (db : Table) :
  (forall u, In u db -> User.id u <> user_id) ->
  get_user user_id db = Raise (UserNotFoundException (Some user_id) None).
Proof.
  intros H. unfold get_user.
  replace (first (filter (fun u => User.id u =? user_id) db)) with (@None User.t);
    [reflexivity|].
  symmetry. apply first_filter_None. intros u Hu. apply Z.eqb_neq. auto.
Qed.

Lemma get_user_present (user_id : Z) (db : Table) (u : User.t) :
  In u db -> User.id u = user_id ->
  exists r, get_user user_id db = Ok r /\ In r db /\ User.id r = user_id.
Proof.
  intros Hu E. unfold get_user.
  destruct (first_filter_Some_of_In (fun r => User.id r =? user_id) db u Hu)
    as [r Hr]; [now apply Z.eqb_eq|].
  rewrite Hr. exists r. apply first_filter_In in Hr. destruct Hr as [Hin Hid].
  apply Z.eqb_eq in Hid. auto.
Qed.

(** For an id other than 0 with no row, the detail of the 404 carries the
    id in decimal. *)
Lemma get_user_not_found_detail (user_id : Z) (db : Table) :
  user_id <> 0 ->
  (forall u, In u db -> User.id u <> user_id) ->
  get_user user_id db =
    Raise (mkExc UserNotFoundException_cls 404
             ("User with id=" ++ str_of_int user_id ++ " not found")).
Proof.
  intros Hnz H. rewrite (get_user_absent _ _ H).
  unfold UserNotFoundException, int_truthy.
  apply Z.eqb_neq in Hnz. now rewrite Hnz.
Qed.

(** C9, at the id 0: no row of a table that satisfies the invariant has
    the id 0, and the 404 that [get_user] raises for it does not carry the
    id: its detail names a username, the word None. *)
Theorem get_user_zero_detail (db : Table) :
  wf db ->
  get_user 0 db =
    Raise (mkExc UserNotFoundException_cls 404
             "User with username=None not found").
Proof.
  intros [_ Hp _ _]. rewrite get_user_absent; [reflexivity|].
  rewrite Forall_forall in Hp. intros u Hu. specialize (Hp u Hu). lia.
Qed.

Lemma get_user_zero_detail_witness :
  wf multiple_users /\
  get_user 0 multiple_users =
    Raise (mkExc UserNotFoundException_cls 404
             "User with username=None not found").
Proof.
  split; [exact wf_multiple_users|].
  apply get_user_zero_detail. exact wf_multiple_users.
Defined.

(** ** Create *)

Lemma first_str_col_eq_Some (col : User.t -> string) (v : string) (db : Table) :
  (exists u, In u db /\ col u = v) ->
  exists r, first (filter (str_col_eq col (Some v)) db) = Some r.
Proof.
  intros [u [Hu E]]. apply first_filter_Some_of_In with (u := u); [exact Hu|].
  unfold str_col_eq. now apply String.eqb_eq.
Qed.

Lemma first_str_col_eq_free (col : User.t -> string) (v : string) (db : Table) :
  (forall u, In u db -> col u <> v) ->
  first (filter (str_col_eq col (Some v)) db) = None.
Proof.
  intros H. apply first_filter_None. intros u Hu.
  unfold str_col_eq. apply String.eqb_neq. auto.
Qed.

(** C1: a create request whose username is the username of a row is
    refused with the already-exists error for the field username and that
    value, whatever its email; one whose username is free and whose email
    is the email of a row is refused with the error for the field email;
    one whose username and email are both those of rows is refused for the
    username.  The table is left as it was, the status is 409 and the
    detail spells the field and the value. *)
Theorem create_user_conflict (now : Z) (user : UserCreate.t) (db : Table) :
  ((exists u, In u db /\ User.username u = UserCreate.username user) ->
   create_user now user db =
     (db, Raise (UserAlreadyExistsException "username" (UserCreate.username user))))
  /\
  ((forall u, In u db -> User.username u <> UserCreate.username user) ->
   (exists u, In u db /\ User.email u = UserCreate.email user) ->
   create_user now user db =
     (db, Raise (UserAlreadyExistsException "email" (UserCreate.email user))))
  /\
  ((exists u, In u db /\ User.username u = UserCreate.username user) ->
   (exists u, In u db /\ User.email u = UserCreate.email user) ->
   create_user now user db =
     (db, Raise (UserAlreadyExistsException "username" (UserCreate.username user))))
  /\
  (forall field value,
     UserAlreadyExistsException field value =
       mkExc UserAlreadyExistsException_cls 409
         ("User with " ++ field ++ "='" ++ value ++ "' already exists")).
Proof.
  assert (Husername :
            (exists u, In u db /\ User.username u = UserCreate.username user) ->
            create_user now user db =
              (db, Raise (UserAlreadyExistsException "username"
                            (UserCreate.username user)))).
  { intros H. unfold create_user.
    destruct (first_str_col_eq_Some User.username _ db H) as [r ->].
    reflexivity. }
  split; [exact Husername|]. split; [|split].
  - intros Hfree H. unfold create_user.
    rewrite (first_str_col_eq_free User.username _ db Hfree).
    destruct (first_str_col_eq_Some User.email _ db H) as [r ->].
    reflexivity.
  - intros H _. now apply Husername.
  - reflexivity.
Qed.

Lemma create_user_conflict_witness :
  create_user 200
    (UserCreate.mk "john_doe" "jane.smith@example.com" "J" "D" USER true)
    multiple_users =
  (multiple_users,
   Raise (mkExc UserAlreadyExistsException_cls 409
            "User with username='john_doe' already exists")).
Proof.
  apply (proj1 (create_user_conflict 200
    (UserCreate.mk "john_doe" "jane.smith@example.com" "J" "D" USER true)
    multiple_users)).
  exists john. split; [now left|reflexivity].
Defined.

(** A create request with a free username and a free email is stored: the
    pre-checks pass and the store's own constraints then hold. *)
Lemma create_user_succeeds (now : Z) (user : UserCreate.t) (db : Table) :
  (forall u, In u db -> User.username u <> UserCreate.username user) ->
  (forall u, In u db -> User.email u <> UserCreate.email user) ->
  exists row,
    create_user now user db = ((db ++ [row])%list, Ok row) /\
    User.id row = next_rowid db /\
    User.username row = UserCreate.username user /\
    User.email row = UserCreate.email user /\
    User.created_at row = now /\ User.updated_at row = now.
Proof.
  intros Hu He. unfold create_user.
  rewrite (first_str_col_eq_free User.username _ db Hu).
  rewrite (first_str_col_eq_free User.email _ db He).
  unfold flush_insert.
  pose proof (first_str_col_eq_free User.username _ db Hu) as Tu.
  pose proof (first_str_col_eq_free User.email _ db He) as Te.
  apply first_str_col_eq_None in Tu, Te. rewrite Tu, Te.
  eexists. split; [reflexivity|]. simpl. auto 6.
Qed.

(** A stored row goes last and has the largest id, so the order of the
    table by id is the order of insertion. *)
Lemma create_user_appends (now : Z) (user : UserCreate.t) (db db' : Table)
    (row : User.t) :
  create_user now user db = (db', Ok row) ->
  db' = (db ++ [row])%list /\ Forall (fun u => id_lt u row) db.
Proof.
  unfold create_user.
  destruct (first (filter (str_col_eq User.username _) db)); [discriminate|].
  destruct (first (filter (str_col_eq User.email _) db)); [discriminate|].
  unfold flush_insert.
  destruct (taken User.username _ db); [discriminate|].
  destruct (taken User.email _ db); [discriminate|].
  intros [= <- <-]. split; [reflexivity|].
  unfold id_lt. cbn [User.id]. apply next_rowid_above.
Qed.

(** ** Delete *)

Lemma delete_user_absent (user_id : Z) (db : Table) :
  (forall u, In u db -> User.id u <> user_id) ->
  delete_user user_id db = (db, Raise (UserNotFoundException (Some user_id) None)).
Proof.
  intros H. unfold delete_user.
  replace (first (filter (fun u => User.id u =? user_id) db)) with (@None User.t);
    [reflexivity|].
  symmetry. apply first_filter_None. intros u Hu. apply Z.eqb_neq. auto.
Qed.

(** C7: delete of an id that no row has raises the 404 and leaves the
    table as it was.  Delete of an id that a row has succeeds with no
    value; the table it leaves has exactly the rows with another id, so a
    get of the id and a second delete of the id both raise the 404. *)
Theorem delete_user_removes (user_id : Z) (db : Table) :
  ((forall u, In u db -> User.id u <> user_id) ->
   delete_user user_id db = (db, Raise (UserNotFoundException (Some user_id) None))
   /\ status_code (UserNotFoundException (Some user_id) None) = 404)
  /\
  ((exists u, In u db /\ User.id u = user_id) ->
   exists db',
     delete_user user_id db = (db', Ok tt) /\
     (forall r, In r db' <-> In r db /\ User.id r <> user_id) /\
     get_user user_id db' = Raise (UserNotFoundException (Some user_id) None) /\
     delete_user user_id db' =
       (db', Raise (UserNotFoundException (Some user_id) None))).
Proof.
  split.
  - intros H. split; [now apply delete_user_absent|reflexivity].
  - intros [u [Hu E]]. unfold delete_user at 1.
    destruct (first_filter_Some_of_In (fun r => User.id r =? user_id) db u Hu)
      as [r Hr]; [now apply Z.eqb_eq|].
    rewrite Hr. apply first_filter_In in Hr. destruct Hr as [_ Hid].
    apply Z.eqb_eq in Hid.
    exists (flush_delete r db). split; [reflexivity|].
    assert (Hrows : forall x, In x (flush_delete r db) <->
                              In x db /\ User.id x <> user_id).
    { intros x. unfold flush_delete, others. rewrite filter_In, Hid.
      rewrite negb_true_iff, Z.eqb_neq. tauto. }
    split; [exact Hrows|].
    split.
    + apply get_user_absent. intros x Hx. now apply Hrows in Hx.
    + apply delete_user_absent. intros x Hx. now apply Hrows in Hx.
Qed.

Lemma delete_user_removes_witness :
  exists db',
    delete_user 1 multiple_users = (db', Ok tt) /\
    (forall r, In r db' <-> In r multiple_users /\ User.id r <> 1) /\
    get_user 1 db' = Raise (UserNotFoundException (Some 1) None) /\
    delete_user 1 db' = (db', Raise (UserNotFoundException (Some 1) None)).
Proof.
  apply (proj2 (delete_user_removes 1 multiple_users)).
  exists john. split; [now left|reflexivity].
Defined.

(** ** List *)

Lemma filter_filter (p q : User.t -> bool) (l : list User.t) :
  filter q (filter p l) = filter (fun u => (p u && q u)%bool) l.
Proof.
  induction l as [|r l IH]; simpl; [reflexivity|].
  destruct (p r); simpl; [|exact IH].
  destruct (q r); now rewrite IH.
Qed.

Lemma filter_true (l : list User.t) : filter (fun _ => true) l = l.
Proof. apply filter_all. reflexivity. Qed.

(** The query that [get_users] builds selects the rows that pass both
    filters, in the order of the table. *)
Lemma get_users_query (skip limit_ : Z) (active : option bool)
    (role : option string) (db : Table) :
  get_users skip limit_ active role db =
    UserListResponse.mk
      (count (filter (matches active role) db))
      (limit limit_ (offset skip (filter (matches active role) db)))
      skip limit_.
Proof.
  assert (Hactive : forall a,
            filter (fun u => Bool.eqb (User.active u) a) db =
            filter (matches (Some a) None) db).
  { intros a. apply filter_ext. intros u. unfold matches.
    now rewrite andb_true_r. }
  unfold get_users, all.
  destruct active as [a|], role as [[|c s]|];
    cbn [str_truthy str_of_optional_str].
  - now rewrite Hactive.
  - now rewrite filter_filter.
  - now rewrite Hactive.
  - now rewrite <- (filter_true db) at 1 2.
  - reflexivity.
  - now rewrite <- (filter_true db) at 1 2.
Qed.

Lemma matches_spec (active : option bool) (role : option string) (u : User.t) :
  matches active role u = true <->
  (forall a, active = Some a -> User.active u = a) /\
  (forall s, role = Some s -> s <> "" ->
             role_name (User.role u) = _db_value_for_elem s).
Proof.
  unfold matches, role_col_eq. rewrite andb_true_iff. split.
  - intros [Ha Hr]. split.
    + intros a ->. now apply Bool.eqb_prop.
    + intros s -> Hs. destruct s as [|c s]; [congruence|].
      now apply String.eqb_eq.
  - intros [Ha Hr]. split.
    + destruct active as [a|]; [|reflexivity].
      rewrite (Ha a eq_refl). apply Bool.eqb_reflx.
    + destruct role as [[|c s]|]; try reflexivity.
      apply String.eqb_eq. now apply Hr.
Qed.

Lemma get_users_route_Ok (skip limit_ : option Z) (active : option bool)
    (role : option string) (db : Table) :
  skip_valid skip -> limit_valid limit_ ->
  get_users_route skip limit_ active role db =
    Ok (get_users (effective 0 skip) (effective 100 limit_) active role db).
Proof.
  unfold get_users_route, Query_int, skip_valid, limit_valid, effective, bind.
  destruct skip as [s|], limit_ as [l|]; intros Hs Hl.
  - destruct (Z.ltb_spec s 0); [lia|].
    destruct (Z.ltb_spec l 1); [lia|].
    destruct (Z.ltb_spec 1000 l); [lia|]. reflexivity.
  - destruct (Z.ltb_spec s 0); [lia|]. reflexivity.
  - destruct (Z.ltb_spec l 1); [lia|].
    destruct (Z.ltb_spec 1000 l); [lia|]. reflexivity.
  - reflexivity.
Qed.

(** A request with [skip] or [limit] out of range is answered 422. *)
Lemma get_users_route_invalid (skip limit_ : option Z) (active : option bool)
    (role : option string) (db : Table) :
  ~ (skip_valid skip /\ limit_valid limit_) ->
  get_users_route skip limit_ active role db = Raise validation_error.
Proof.
  unfold get_users_route, Query_int, skip_valid, limit_valid, bind.
  destruct skip as [s|], limit_ as [l|]; intros H.
  - destruct (Z.ltb_spec s 0); [reflexivity|].
    destruct (Z.ltb_spec l 1); [reflexivity|].
    destruct (Z.ltb_spec 1000 l); [reflexivity|]. exfalso. apply H. lia.
  - destruct (Z.ltb_spec s 0); [reflexivity|]. exfalso. apply H. split; [lia|exact I].
  - destruct (Z.ltb_spec l 1); [reflexivity|].
    destruct (Z.ltb_spec 1000 l); [reflexivity|]. exfalso. apply H.
    split; [exact I|lia].
  - exfalso. apply H. split; exact I.
Qed.

Lemma effective_skip_nonneg (skip : option Z) :
  skip_valid skip -> 0 <= effective 0 skip.
Proof. destruct skip; simpl; lia. Qed.

Lemma effective_limit_range (limit_ : option Z) :
  limit_valid limit_ -> 1 <= effective 100 limit_ <= 1000.
Proof. destruct limit_; simpl; lia. Qed.

(** C5: a list request with [skip] and [limit] in range is answered; the
    total is the number of rows that pass both filters, counted before the
    page is cut; the page is what is left of those rows after dropping the
    first [skip] and keeping at most [limit] of the rest; so it has
    min(limit, total - skip) rows, one row when the limit is 1 and fewer
    than total rows are skipped. *)
Theorem get_users_total_and_page (skip limit_ : option Z)
    (active : option bool) (role : option string) (db : Table) :
  skip_valid skip -> limit_valid limit_ ->
  exists r,
    get_users_route skip limit_ active role db = Ok r /\
    let selected := filter (matches active role) db in
    let N := Z.of_nat (List.length selected) in
    let page := UserListResponse.users r in
    UserListResponse.total r = N /\
    page = firstn (Z.to_nat (effective 100 limit_))
             (skipn (Z.to_nat (effective 0 skip)) selected) /\
    Z.of_nat (List.length page) <= effective 100 limit_ /\
    Z.of_nat (List.length page) =
      Z.min (effective 100 limit_) (Z.max 0 (N - effective 0 skip)) /\
    (effective 100 limit_ = 1 -> effective 0 skip < N ->
     List.length page = 1%nat /\ UserListResponse.total r = N).
Proof.
  intros Hs Hl. eexists. split; [now apply get_users_route_Ok|].
  rewrite get_users_query. cbn [UserListResponse.total UserListResponse.users].
  pose proof (effective_skip_nonneg _ Hs) as Hs'.
  pose proof (effective_limit_range _ Hl) as Hl'.
  set (selected := filter (matches active role) db).
  set (k := effective 0 skip) in *. set (n := effective 100 limit_) in *.
  unfold limit, offset, count.
  destruct (Z.ltb_spec n 0); [lia|].
  cbv zeta.
  assert (Hlen : List.length (firstn (Z.to_nat n) (skipn (Z.to_nat k) selected)) =
                 Nat.min (Z.to_nat n) (List.length selected - Z.to_nat k)).
  { now rewrite length_firstn, length_skipn. }
  repeat split; try rewrite Hlen; try lia.
Qed.

Lemma get_users_total_and_page_witness :
  exists r,
    get_users_route (Some 0) (Some 1) None None multiple_users = Ok r /\
    UserListResponse.total r = 2 /\
    UserListResponse.users r = [john].
Proof.
  destruct (get_users_total_and_page (Some 0) (Some 1) None None multiple_users)
    as [r [Hr [Ht [Hp _]]]]; [simpl; lia|simpl; lia|].
  exists r. split; [exact Hr|]. split; [exact Ht|exact Hp].
Defined.




(** ** The role filter *)

Lemma _db_value_for_elem_name (m : UserRole) :
  _db_value_for_elem (role_name m) = role_name m.
Proof. now destruct m. Qed.

Lemma _db_value_for_elem_value (m : UserRole) :
  _db_value_for_elem (role_value m) = role_name m.
Proof. now destruct m. Qed.

Lemma _db_value_for_elem_unknown (s : string) :
  (forall m, s <> role_value m /\ s <> role_name m) ->
  _db_value_for_elem s = s.
Proof.
  intros H. unfold _db_value_for_elem, UserRole_members. cbn [find].
  destruct (H ADMIN) as [A1 A2], (H USER) as [U1 U2], (H GUEST) as [G1 G2].
  repeat match goal with
  | |- context [(?a =? s)%string] =>
      let E := fresh in
      destruct (String.eqb_spec a s) as [E|E]; [now symmetry in E|]
  end.
  reflexivity.
Qed.

(** A member's value as the role selects the rows of that member. *)
Lemma role_col_eq_value (m : UserRole) (u : User.t) :
  role_col_eq (role_value m) u = UserRole_eqb (User.role u) m.
Proof.
  unfold role_col_eq. rewrite _db_value_for_elem_value.
  now destruct (User.role u), m.
Qed.

(** The member name ADMIN is not one of the role values admin, user and
    guest, and yet a list request with it as the role selects the admin
    rows: on the two users of the tests the total is 1 and the page is
    the admin. *)
Lemma get_users_role_member_name :
  ~ In "ADMIN" (map role_value UserRole_members) /\
  get_users_route None None None (Some "ADMIN") multiple_users =
    Ok (UserListResponse.mk 1 [jane] 0 100).
Proof.
  split; [|reflexivity].
  simpl. intros [H|[H|[H|[]]]]; discriminate.
Qed.

(** C10, as amended: with [skip] and [limit] in range a list request is
    answered whatever its role is; a role that is neither the value nor the
    name of a member selects no row, so the total is 0 and the page empty;
    the name of a member selects what the member's value selects; the
    empty string selects what no role selects. *)
Theorem get_users_role_filter (skip limit_ : option Z) (active : option bool)
    (db : Table) :
  skip_valid skip -> limit_valid limit_ ->
  (forall role, exists r, get_users_route skip limit_ active role db = Ok r) /\
  (forall s, s <> "" -> (forall m, s <> role_value m /\ s <> role_name m) ->
     get_users_route skip limit_ active (Some s) db =
       Ok (UserListResponse.mk 0 [] (effective 0 skip) (effective 100 limit_))) /\
  (forall m,
     get_users_route skip limit_ active (Some (role_name m)) db =
     get_users_route skip limit_ active (Some (role_value m)) db) /\
  get_users_route skip limit_ active (Some "") db =
    get_users_route skip limit_ active None db.
Proof.
  intros Hs Hl. split; [|split; [|split]].
  - intros role. eexists. now apply get_users_route_Ok.
  - intros s Hne Hunknown. rewrite get_users_route_Ok by assumption.
    rewrite get_users_query.
    rewrite (filter_none (matches active (Some s)) db).
    + unfold limit, offset, count. rewrite skipn_nil, firstn_nil.
      now destruct (_ <? 0).
    + intros u _. unfold matches. apply andb_false_iff. right.
      destruct s as [|c s]; [congruence|].
      unfold role_col_eq. rewrite (_db_value_for_elem_unknown _ Hunknown).
      apply String.eqb_neq. intros E.
      destruct (Hunknown (User.role u)) as [_ Hn]. now apply Hn.
  - intros m. rewrite !get_users_route_Ok by assumption.
    rewrite !get_users_query.
    assert (E : filter (matches active (Some (role_name m))) db =
                filter (matches active (Some (role_value m))) db)
      by (apply filter_ext; intros u; now destruct m).
    now rewrite E.
  - now rewrite !get_users_route_Ok by assumption.
Qed.

Lemma get_users_role_filter_witness :
  get_users_route (Some 0) (Some 10) None (Some "superuser") multiple_users =
    Ok (UserListResponse.mk 0 [] 0 10).
Proof.
  refine (proj1 (proj2 (get_users_role_filter (Some 0) (Some 10) None
                          multiple_users _ _)) "superuser" _ _).
  - simpl. lia.
  - simpl. lia.
  - discriminate.
  - intros m. destruct m; split; discriminate.
Defined.

(** ** Update *)

Lemma update_user_unfold (now user_id : Z) (user_update : UserUpdate.t)
    (db : Table) :
  update_user now user_id user_update db =
  match first (filter (fun u => User.id u =? user_id) db) with
  | None => (db, Raise (UserNotFoundException (Some user_id) None))
  | Some db_user =>
      match
        (_ <- precheck "username" User.username
                (UserUpdate.username user_update) db_user db ;;
         precheck "email" User.email (UserUpdate.email user_update) db_user db)
      with
      | Raise e => (db, Raise e)
      | Ok _ =>
          match flush_update now db_user
                  (setattrs user_update (loaded db_user)) db with
          | Flushed db' db_user' => (db', Ok db_user')
          | IntegrityError => (db, Raise update_conflict)
          end
      end
  end.
Proof. reflexivity. Qed.

Lemma get_user_Ok (user_id : Z) (db : Table) (u : User.t) :
  get_user user_id db = Ok u <->
  first (filter (fun r => User.id r =? user_id) db) = Some u.
Proof.
  unfold get_user. destruct (first _); split; congruence.
Qed.

Lemma get_user_Ok_In (user_id : Z) (db : Table) (u : User.t) :
  get_user user_id db = Ok u -> In u db /\ User.id u = user_id.
Proof.
  rewrite get_user_Ok. intros H. apply first_filter_In in H.
  destruct H as [Hin Hid]. apply Z.eqb_eq in Hid. auto.
Qed.

Section Precheck.
Variables (field : string) (col : User.t -> string).
Variables (old : User.t) (db : Table).

Lemma precheck_own :
  precheck field col (Some (Some (col old))) old db = Ok tt.
Proof. unfold precheck. cbn. now rewrite String.eqb_refl. Qed.

Lemma precheck_free (v : string) :
  (forall u, In u db -> col u <> v) ->
  precheck field col (Some (Some v)) old db = Ok tt.
Proof.
  intros H. unfold precheck.
  rewrite (first_str_col_eq_free col v db H). now destruct (negb _).
Qed.

Lemma precheck_null : precheck field col (Some None) old db = Ok tt.
Proof.
  unfold precheck. cbn.
  now rewrite (filter_none (str_col_eq col None) db).
Qed.

Lemma precheck_taken (v : string) :
  v <> col old -> (exists u, In u db /\ col u = v) ->
  precheck field col (Some (Some v)) old db =
    Raise (UserAlreadyExistsException field v).
Proof.
  intros Hne H. unfold precheck. cbn [optional_str_eqb].
  apply String.eqb_neq in Hne. rewrite Hne. cbn [negb].
  destruct (first_str_col_eq_Some col v db H) as [r ->]. reflexivity.
Qed.

Lemma precheck_cases (value : option (option string)) :
  precheck field col value old db = Ok tt \/
  exists v, value = Some (Some v) /\
            precheck field col value old db =
              Raise (UserAlreadyExistsException field v).
Proof.
  destruct value as [[v|]|].
  - unfold precheck. destruct (negb _); [|now left].
    destruct (first _); [|now left]. right. now exists v.
  - left. apply precheck_null.
  - now left.
Qed.
End Precheck.

Lemma NoDup_map_injective (col : User.t -> string) (db : Table) (a b : User.t) :
  NoDup (map col db) -> In a db -> In b db -> col a = col b -> a = b.
Proof.
  induction db as [|r db IH]; simpl; [tauto|].
  intros Hn Ha Hb E. inversion Hn as [|? ? Hr Hdb]; subst.
  destruct Ha as [<-|Ha], Hb as [<-|Hb]; auto.
  - exfalso. apply Hr. rewrite E. now apply in_map.
  - exfalso. apply Hr. rewrite <- E. now apply in_map.
Qed.

Lemma optional_str_eqb_eq (a b : option string) :
  optional_str_eqb a b = true <-> a = b.
Proof.
  destruct a as [x|], b as [y|]; simpl; try (split; congruence).
  rewrite String.eqb_eq. split; congruence.
Qed.

Lemma optional_role_eqb_eq (a b : option UserRole) :
  optional_role_eqb a b = true <-> a = b.
Proof.
  destruct a as [[]|], b as [[]|]; simpl; split; congruence.
Qed.

Lemma optional_bool_eqb_eq (a b : option bool) :
  optional_bool_eqb a b = true <-> a = b.
Proof.
  destruct a as [[]|], b as [[]|]; simpl; split; congruence.
Qed.

Lemma unmodified_loaded (u : User.t) (o : Attrs.t) :
  unmodified u o = true <-> o = loaded u.
Proof.
  unfold unmodified, loaded. rewrite !andb_true_iff.
  rewrite !optional_str_eqb_eq, optional_role_eqb_eq, optional_bool_eqb_eq.
  destruct o; simpl. split.
  - intros [[[[[-> ->] ->] ->] ->] ->]. reflexivity.
  - intros [= -> -> -> -> -> ->]. tauto.
Qed.

Lemma updated_row_loaded (now : Z) (u row : User.t) (o : Attrs.t) :
  updated_row now u o = Some row -> o = loaded row.
Proof.
  unfold updated_row, loaded. destruct o as [un em fn ln ro ac]; simpl.
  destruct un, em, fn, ln, ro, ac; try discriminate.
  now intros [= <-].
Qed.

(** What a successful flush of an UPDATE leaves. *)
Lemma flush_update_Flushed (now : Z) (u row : User.t) (o : Attrs.t)
    (db db' : Table) :
  flush_update now u o db = Flushed db' row ->
  o = loaded row /\
  User.id row = User.id u /\
  User.created_at row = User.created_at u /\
  ((unmodified u o = true /\ row = u /\ db' = db) \/
   (unmodified u o = false /\ User.updated_at row = now /\
    db' = replace_row row db)).
Proof.
  unfold flush_update. destruct (unmodified u o) eqn:Eu.
  - intros [= <- <-]. apply unmodified_loaded in Eu.
    repeat split; auto; now left.
  - destruct (updated_row now u o) as [r|] eqn:Er; [|discriminate].
    destruct (unique_broken User.username u r db); [discriminate|].
    destruct (unique_broken User.email u r db); [discriminate|].
    intros [= <- <-]. destruct (updated_row_id _ _ _ _ Er) as [E1 [E2 E3]].
    apply updated_row_loaded in Er.
    repeat split; auto; now right.
Qed.

(** A successful update went through the flush of the row it found. *)
Lemma update_user_Ok (now user_id : Z) (upd : UserUpdate.t) (db db' : Table)
    (old row : User.t) :
  get_user user_id db = Ok old ->
  update_user now user_id upd db = (db', Ok row) ->
  flush_update now old (setattrs upd (loaded old)) db = Flushed db' row.
Proof.
  rewrite get_user_Ok, update_user_unfold. intros ->.
  destruct (bind _ _); [|discriminate].
  destruct (flush_update _ _ _ _); [|discriminate].
  now intros [= <- <-].
Qed.

Lemma first_filter_replace (k : Z) (row u : User.t) (db : Table) :
  first (filter (fun r => User.id r =? k) db) = Some u ->
  User.id row = k ->
  first (filter (fun r => User.id r =? k) (replace_row row db)) = Some row.
Proof.
  intros H <-. unfold replace_row, first in *.
  induction db as [|r db IH]; simpl in *; [discriminate|].
  destruct (User.id r =? User.id row) eqn:Er; simpl.
  - now rewrite Z.eqb_refl.
  - rewrite Er. now apply IH.
Qed.

Lemma In_replace_row (row r : User.t) (db : Table) :
  User.id r <> User.id row ->
  (In r (replace_row row db) <-> In r db).
Proof.
  intros Hne. unfold replace_row. rewrite in_map_iff. split.
  - intros [x [E Hx]]. destruct (User.id x =? User.id row); congruence.
  - intros Hr. exists r. split; [|exact Hr].
    apply Z.eqb_neq in Hne. now rewrite Hne.
Qed.

Lemma precheck_storable (field : string) (col : User.t -> string)
    (old : User.t) (db : Table) (value : option (option string)) :
  storable col old db value -> precheck field col value old db = Ok tt.
Proof.
  destruct value as [[v|]|]; simpl; [|tauto|reflexivity].
  intros [->|H]; [apply precheck_own|now apply precheck_free].
Qed.

Lemma setattr_storable (col : User.t -> string) (old : User.t) (db : Table)
    (value : option (option string)) :
  storable col old db value ->
  exists v, setattr value (Some (col old)) = Some v /\
            (v = col old \/ forall u, In u db -> col u <> v).
Proof.
  destruct value as [[v|]|]; simpl; [|tauto|].
  - intros H. now exists v.
  - intros _. exists (col old). auto.
Qed.

Lemma setattr_not_null {A : Type} (value : option (option A)) (x : A) :
  not_null value -> exists v, setattr value (Some x) = Some v.
Proof.
  unfold not_null. destruct value as [[v|]|]; simpl.
  - now exists v.
  - congruence.
  - now exists x.
Qed.

Lemma unique_broken_storable (col : User.t -> string) (u row : User.t)
    (db : Table) :
  col row = col u \/ (forall x, In x db -> col x <> col row) ->
  unique_broken col u row db = false.
Proof.
  unfold unique_broken. intros [E|H]; apply andb_false_iff.
  - left. rewrite E, String.eqb_refl. reflexivity.
  - right. apply taken_false. rewrite in_map_iff.
    intros [x [E Hx]]. apply filter_In in Hx. now apply (H x).
Qed.

(** An update of an existing row succeeds when the username and the email
    it supplies are storable and it supplies no null. *)
Lemma update_user_succeeds (now user_id : Z) (upd : UserUpdate.t) (db : Table)
    (old : User.t) :
  get_user user_id db = Ok old ->
  storable User.username old db (UserUpdate.username upd) ->
  storable User.email old db (UserUpdate.email upd) ->
  not_null (UserUpdate.first_name upd) -> not_null (UserUpdate.last_name upd) ->
  not_null (UserUpdate.role upd) -> not_null (UserUpdate.active upd) ->
  exists db' row, update_user now user_id upd db = (db', Ok row).
Proof.
  intros Hold Hu He Hf Hl Hr Ha.
  rewrite update_user_unfold. apply get_user_Ok in Hold. rewrite Hold.
  rewrite (precheck_storable _ _ _ _ _ Hu), (precheck_storable _ _ _ _ _ He).
  cbn [bind]. unfold flush_update.
  destruct (unmodified old _); [eauto|].
  destruct (setattr_storable _ _ _ _ Hu) as [un [Eun Hun]].
  destruct (setattr_storable _ _ _ _ He) as [em [Eem Hem]].
  destruct (setattr_not_null _ (User.first_name old) Hf) as [fn Efn].
  destruct (setattr_not_null _ (User.last_name old) Hl) as [ln Eln].
  destruct (setattr_not_null _ (User.role old) Hr) as [ro Ero].
  destruct (setattr_not_null _ (User.active old) Ha) as [ac Eac].
  unfold updated_row, setattrs, loaded.
  cbn [Attrs.username Attrs.email Attrs.first_name Attrs.last_name
       Attrs.role Attrs.active].
  rewrite Eun, Eem, Efn, Eln, Ero, Eac.
  rewrite unique_broken_storable by exact Hun.
  rewrite unique_broken_storable by exact Hem.
  eauto.
Qed.

Lemma setattr_after {A : Type} (value : option (option A)) (old new : A) :
  setattr value (Some old) = Some new -> field_after value old new.
Proof.
  destruct value as [v|]; simpl; [tauto|congruence].
Qed.

(** The row and the table a successful update leaves. *)
Lemma update_user_Ok_stored (now user_id : Z) (upd : UserUpdate.t)
    (db db' : Table) (old row : User.t) :
  get_user user_id db = Ok old ->
  update_user now user_id upd db = (db', Ok row) ->
  stored_as_supplied user_id upd db db' old row.
Proof.
  intros Hold Hupd. pose proof (update_user_Ok _ _ _ _ _ _ _ Hold Hupd) as Hf.
  apply flush_update_Flushed in Hf. destruct Hf as [Ho [Eid [Ecr Hcase]]].
  pose proof (get_user_Ok_In _ _ _ Hold) as [Hin Hid].
  unfold setattrs, loaded in Ho.
  cbn [Attrs.username Attrs.email Attrs.first_name Attrs.last_name
       Attrs.role Attrs.active] in Ho.
  injection Ho as Eu Ee Ef El Er Ea. unfold stored_as_supplied.
  repeat (split; [now apply setattr_after|]).
  split; [exact Eid|]. split; [exact Ecr|].
  destruct Hcase as [[_ [-> ->]]|[_ [_ ->]]].
  - split; [exact Hold|]. intros r _. reflexivity.
  - split.
    + apply get_user_Ok. apply first_filter_replace with (u := old).
      * now apply get_user_Ok.
      * congruence.
    + intros r Hr. apply In_replace_row. congruence.
Qed.

(** An update that sets the username to the row's own, and the email to
    the email of another row, is refused; so is one that sets the
    username to the row's own and a name to null. *)
Lemma update_user_own_value_may_fail :
  get_user 1 multiple_users = Ok john /\
  update_user 200 1
    (UserUpdate.mk (Some (Some (User.username john)))
       (Some (Some (User.email jane))) None None None None)
    multiple_users =
    (multiple_users,
     Raise (UserAlreadyExistsException "email" "jane.smith@example.com")) /\
  update_user 200 1
    (UserUpdate.mk (Some (Some (User.username john))) None (Some None)
       None None None)
    multiple_users = (multiple_users, Raise update_conflict).
Proof. repeat split. Qed.

(** C2, as amended: for a row of a table that satisfies the invariant, an
    update that sets the username to one that another row has is refused
    with the already-exists error for the username; one that sets the
    email to one that another row has is refused with the already-exists
    error, for the email or, when its username is taken as well, for the
    username; in both the table is left as it was.  Setting the
    username, or the email, to the row's own current value raises no
    conflict: when the other of the two is left out, the row's own or
    free, and no field is null, the update succeeds, the row returned
    and stored holds every supplied value, and the other rows are left
    as they were. *)
Theorem update_user_uniqueness (now user_id : Z) (upd : UserUpdate.t)
    (db : Table) (old : User.t) :
  wf db -> get_user user_id db = Ok old ->
  (forall v other,
     UserUpdate.username upd = Some (Some v) ->
     In other db -> User.id other <> user_id -> User.username other = v ->
     update_user now user_id upd db =
       (db, Raise (UserAlreadyExistsException "username" v)))
  /\
  (forall v other,
     UserUpdate.email upd = Some (Some v) ->
     In other db -> User.id other <> user_id -> User.email other = v ->
     update_user now user_id upd db =
       (db, Raise (UserAlreadyExistsException "email" v)) \/
     exists w,
       UserUpdate.username upd = Some (Some w) /\
       update_user now user_id upd db =
         (db, Raise (UserAlreadyExistsException "username" w)))
  /\
  (UserUpdate.username upd = Some (Some (User.username old)) ->
   storable User.email old db (UserUpdate.email upd) ->
   not_null (UserUpdate.first_name upd) -> not_null (UserUpdate.last_name upd) ->
   not_null (UserUpdate.role upd) -> not_null (UserUpdate.active upd) ->
   exists db' row,
     update_user now user_id upd db = (db', Ok row) /\
     stored_as_supplied user_id upd db db' old row)
  /\
  (UserUpdate.email upd = Some (Some (User.email old)) ->
   storable User.username old db (UserUpdate.username upd) ->
   not_null (UserUpdate.first_name upd) -> not_null (UserUpdate.last_name upd) ->
   not_null (UserUpdate.role upd) -> not_null (UserUpdate.active upd) ->
   exists db' row,
     update_user now user_id upd db = (db', Ok row) /\
     stored_as_supplied user_id upd db db' old row).
Proof.
  intros Hwf Hold. pose proof (get_user_Ok_In _ _ _ Hold) as [Hin Hid].
  pose proof (proj1 (get_user_Ok _ _ _) Hold) as Hfirst.
  split; [|split; [|split]].
  - intros v other Ev Hother Hne Hv.
    rewrite update_user_unfold, Hfirst, Ev.
    rewrite precheck_taken; [reflexivity| |now exists other].
    intros E. apply Hne. rewrite <- Hid. f_equal.
    apply (NoDup_map_injective User.username db); try assumption.
    + apply Hwf.
    + congruence.
  - intros v other Ev Hother Hne Hv.
    rewrite update_user_unfold, Hfirst.
    destruct (precheck_cases "username" User.username old db
                (UserUpdate.username upd)) as [->|[w [Ew ->]]].
    + left. rewrite Ev. cbn [bind].
      rewrite precheck_taken; [reflexivity| |now exists other].
      intros E. apply Hne. rewrite <- Hid. f_equal.
      apply (NoDup_map_injective User.email db); try assumption.
      * apply Hwf.
      * congruence.
    + right. exists w. split; [exact Ew|reflexivity].
  - intros Eu He Hf Hl Hr Ha.
    destruct (update_user_succeeds now user_id upd db old) as [db' [row Hok]];
      try assumption; [rewrite Eu; now left|].
    exists db', row. split; [exact Hok|].
    now apply (update_user_Ok_stored now).
  - intros Ee Hu Hf Hl Hr Ha.
    destruct (update_user_succeeds now user_id upd db old) as [db' [row Hok]];
      try assumption; [rewrite Ee; now left|].
    exists db', row. split; [exact Hok|].
    now apply (update_user_Ok_stored now).
Qed.

Lemma update_user_uniqueness_witness :
  update_user 200 1
    (UserUpdate.mk (Some (Some "jane_smith")) None None None None None)
    multiple_users =
  (multiple_users,
   Raise (mkExc UserAlreadyExistsException_cls 409
            "User with username='jane_smith' already exists")) /\
  exists db' row,
    update_user 200 1 own_username_new_first_name multiple_users =
      (db', Ok row) /\
    Some "john_doe" = Some (User.username row) /\
    Some "NewName" = Some (User.first_name row) /\
    User.email row = User.email john /\
    get_user 1 db' = Ok row /\
    (In jane db' <-> In jane multiple_users).
Proof.
  split.
  - refine (proj1 (update_user_uniqueness 200 1
              (UserUpdate.mk (Some (Some "jane_smith")) None None None None None)
              multiple_users john wf_multiple_users eq_refl)
            "jane_smith" jane eq_refl _ _ eq_refl).
    + right. now left.
    + discriminate.
  - destruct (proj1 (proj2 (proj2 (update_user_uniqueness 200 1
                own_username_new_first_name multiple_users john
                wf_multiple_users eq_refl))))
      as [db' [row [Hok Hs]]].
    + reflexivity.
    + exact I.
    + discriminate.
    + discriminate.
    + discriminate.
    + discriminate.
    + exists db', row. split; [exact Hok|].
      destruct Hs as [Hu [He [Hf [_ [_ [_ [_ [_ [Hg Hrows]]]]]]]]].
      split; [exact Hu|]. split; [exact Hf|]. split; [exact He|].
      split; [exact Hg|]. apply Hrows. discriminate.
Defined.

(** Setting the row's own username, and nothing else, succeeds and
    leaves the row as it was. *)
Lemma update_user_own_username :
  update_user 200 1
    (UserUpdate.mk (Some (Some "john_doe")) None None None None None)
    multiple_users = (multiple_users, Ok john).
Proof. reflexivity. Qed.

Lemma setattr_field_after {A : Type} (value : option (option A)) (old new : A) :
  setattr value (Some old) = Some new -> field_after value old new.
Proof.
  destruct value as [v|]; simpl; [tauto|congruence].
Qed.

(** C3: after a successful update of a row, each of the six columns a
    request can set holds the supplied value when the request supplied
    the field, so that no successful request supplied a null, and its
    prior value when the request omitted the field; the id and the
    creation time are the prior ones; the row returned is the row stored
    under the id, and the rows with another id are the ones there were. *)
Theorem update_user_partial (now user_id : Z) (upd : UserUpdate.t)
    (db db' : Table) (old row : User.t) :
  get_user user_id db = Ok old ->
  update_user now user_id upd db = (db', Ok row) ->
  field_after (UserUpdate.username upd) (User.username old) (User.username row) /\
  field_after (UserUpdate.email upd) (User.email old) (User.email row) /\
  field_after (UserUpdate.first_name upd) (User.first_name old) (User.first_name row) /\
  field_after (UserUpdate.last_name upd) (User.last_name old) (User.last_name row) /\
  field_after (UserUpdate.role upd) (User.role old) (User.role row) /\
  field_after (UserUpdate.active upd) (User.active old) (User.active row) /\
  User.id row = User.id old /\
  User.created_at row = User.created_at old /\
  get_user user_id db' = Ok row /\
  (forall r, User.id r <> user_id -> (In r db' <-> In r db)).
Proof.
  intros Hold Hupd. pose proof (update_user_Ok _ _ _ _ _ _ _ Hold Hupd) as Hf.
  apply flush_update_Flushed in Hf. destruct Hf as [Ho [Eid [Ecr Hcase]]].
  pose proof (get_user_Ok_In _ _ _ Hold) as [Hin Hid].
  unfold setattrs, loaded in Ho.
  cbn [Attrs.username Attrs.email Attrs.first_name Attrs.last_name
       Attrs.role Attrs.active] in Ho.
  injection Ho as Eu Ee Ef El Er Ea.
  repeat (split; [now apply setattr_field_after|]).
  split; [exact Eid|]. split; [exact Ecr|].
  destruct Hcase as [[_ [-> ->]]|[_ [_ ->]]].
  - split; [exact Hold|]. intros r _. reflexivity.
  - split.
    + apply get_user_Ok. apply first_filter_replace with (u := old).
      * now apply get_user_Ok.
      * congruence.
    + intros r Hr. apply In_replace_row. congruence.
Qed.

Lemma update_user_partial_witness :
  get_user 1 multiple_users = Ok john /\
  update_user 200 1 new_first_name multiple_users =
    ([john_renamed; jane], Ok john_renamed) /\
  field_after (UserUpdate.first_name new_first_name)
    (User.first_name john) (User.first_name john_renamed) /\
  field_after (UserUpdate.email new_first_name)
    (User.email john) (User.email john_renamed).
Proof.
  split; [reflexivity|]. split; [reflexivity|].
  destruct (update_user_partial 200 1 new_first_name multiple_users
              [john_renamed; jane] john john_renamed eq_refl eq_refl)
    as [_ [He [Hf _]]].
  split; [exact Hf|exact He].
Defined.

(** A field set to a default is not a field left out: setting the role of
    the admin to the default role changes it, and setting a null is
    refused by the store, while the empty request succeeds. *)
Lemma update_user_supplied_or_omitted :
  (exists db' row,
     update_user 200 2
       (UserUpdate.mk None None None None (Some (Some USER)) None)
       multiple_users = (db', Ok row) /\ User.role row = USER) /\
  (exists db' row,
     update_user 200 2 no_update multiple_users = (db', Ok row) /\
     User.role row = ADMIN) /\
  update_user 200 2
    (UserUpdate.mk None None None None (Some None) None)
    multiple_users = (multiple_users, Raise update_conflict).
Proof.
  split; [|split]; [do 2 eexists; split; reflexivity ..|reflexivity].
Qed.

(** ** Timestamps *)

Lemma setattr_differs {A : Type} (eqb : option A -> option A -> bool)
    (value : option (option A)) (old : A) :
  eqb (Some old) (Some old) = true ->
  eqb (setattr value (Some old)) (Some old) = negb (differs eqb value old).
Proof.
  intros Hrefl. destruct value as [v|]; simpl.
  - now rewrite negb_involutive.
  - exact Hrefl.
Qed.

Lemma unmodified_changes_row (upd : UserUpdate.t) (old : User.t) :
  unmodified old (setattrs upd (loaded old)) = negb (changes_row upd old).
Proof.
  unfold unmodified, changes_row, setattrs, loaded.
  cbn [Attrs.username Attrs.email Attrs.first_name Attrs.last_name
       Attrs.role Attrs.active].
  rewrite !setattr_differs, !negb_orb; try reflexivity.
  - now apply optional_bool_eqb_eq.
  - now apply optional_role_eqb_eq.
  - now apply optional_str_eqb_eq.
  - now apply optional_str_eqb_eq.
  - now apply optional_str_eqb_eq.
  - now apply optional_str_eqb_eq.
Qed.

(** An update that supplies no field succeeds and leaves [updated_at] as
    it was, and so does one that supplies the value the row has. *)
Lemma update_user_without_change :
  update_user 200 1 no_update multiple_users = (multiple_users, Ok john) /\
  update_user 200 1
    (UserUpdate.mk None None (Some (Some "John")) None None None)
    multiple_users = (multiple_users, Ok john) /\
  User.updated_at john = 100 /\
  ~ every_update_refreshes.
Proof.
  split; [reflexivity|]. split; [reflexivity|]. split; [reflexivity|].
  intros H.
  specialize (H 200 1 no_update multiple_users multiple_users john john
                eq_refl eq_refl eq_refl).
  simpl in H. lia.
Qed.

(** C8, as amended: a successful update never changes [created_at]; when
    it changes the value of some column it sets [updated_at] to the
    reading of the clock, which is later than the prior [updated_at] when
    the clock has moved on; when it changes no value, because it supplies
    no field or only the values the row has, it leaves the row, and its
    [updated_at], as they were. *)
Theorem update_user_timestamps (now user_id : Z) (upd : UserUpdate.t)
    (db db' : Table) (old row : User.t) :
  get_user user_id db = Ok old ->
  update_user now user_id upd db = (db', Ok row) ->
  User.created_at row = User.created_at old /\
  (changes_row upd old = true ->
   User.updated_at row = now /\
   (User.updated_at old < now -> User.updated_at old < User.updated_at row)) /\
  (changes_row upd old = false -> row = old /\ db' = db).
Proof.
  intros Hold Hupd. pose proof (update_user_Ok _ _ _ _ _ _ _ Hold Hupd) as Hf.
  apply flush_update_Flushed in Hf. destruct Hf as [_ [_ [Ecr Hcase]]].
  rewrite unmodified_changes_row in Hcase.
  split; [exact Ecr|].
  destruct Hcase as [[Hc [-> ->]]|[Hc [Hnow ->]]].
  - apply negb_true_iff in Hc. rewrite Hc. split; [discriminate|auto].
  - apply negb_false_iff in Hc. rewrite Hc. split; [|discriminate].
    intros _. split; [exact Hnow|]. lia.
Qed.

Lemma update_user_timestamps_witness :
  get_user 1 multiple_users = Ok john /\
  update_user 200 1 new_first_name multiple_users =
    ([john_renamed; jane], Ok john_renamed) /\
  User.created_at john_renamed = User.created_at john /\
  User.updated_at john_renamed = 200.
Proof.
  split; [reflexivity|]. split; [reflexivity|].
  destruct (update_user_timestamps 200 1 new_first_name multiple_users
              [john_renamed; jane] john john_renamed eq_refl eq_refl)
    as [Hc [Hu _]].
  split; [exact Hc|]. exact (proj1 (Hu eq_refl)).
Defined.

(** ** The username validators *)

Lemma Field_str_length_ok (v : string) :
  Field_str 3 50 v = if length_ok v then Ok v else Raise validation_error.
Proof.
  unfold Field_str, length_ok.
  destruct (String.length v <? 3)%nat eqn:E1,
           (50 <? String.length v)%nat eqn:E2,
           (3 <=? String.length v)%nat eqn:E3,
           (String.length v <=? 50)%nat eqn:E4;
    try reflexivity; exfalso;
    rewrite ?Nat.ltb_lt, ?Nat.ltb_ge, ?Nat.leb_le, ?Nat.leb_gt in *; lia.
Qed.

Lemma str_forall_replace (v : string) :
  str_forall char_isalnum (replace_with_empty "_" v) = str_forall username_char v.
Proof.
  induction v as [|a v IH]; [reflexivity|].
  cbn [replace_with_empty str_forall]. unfold username_char at 1.
  destruct (Ascii.eqb a "_"); cbn [orb str_forall]; now rewrite IH.
Qed.

Lemma isalnum_replace (v : string) :
  replace_with_empty "_" v <> "" ->
  isalnum (replace_with_empty "_" v) = str_forall username_char v.
Proof.
  intros Hne. rewrite <- str_forall_replace. unfold isalnum.
  destruct (replace_with_empty "_" v); [congruence|reflexivity].
Qed.

Lemma username_char_ascii (a : ascii) :
  is_ascii a = true -> username_char a = regex_char a.
Proof.
  destruct a as [[] [] [] [] [] [] [] []]; intros H;
    solve [reflexivity | discriminate H].
Qed.

Lemma str_forall_ascii (v : string) :
  str_forall is_ascii v = true ->
  str_forall username_char v = str_forall regex_char v.
Proof.
  induction v as [|a v IH]; [reflexivity|].
  cbn [str_forall]. intros H. apply andb_true_iff in H. destruct H as [Ha Hv].
  now rewrite (username_char_ascii a Ha), (IH Hv).
Qed.

(** The username [andre] passes both validators and is not in the language
    of the regular expression. *)
Lemma username_outside_regex_accepted :
  UserBase.username andre = Ok andre /\
  UserUpdate.username_field (Some andre) = Ok (Some andre) /\
  username_regex andre = false.
Proof. repeat split. Qed.

(** Three underscores are in the language of the regular expression and
    are refused: with the underscores taken out the empty string is left,
    and [isalnum] is false on it. *)
Lemma username_of_underscores_rejected :
  username_regex "___" = true /\
  UserBase.username "___" = Raise validation_error /\
  UserUpdate.username_field (Some "___") = Raise validation_error.
Proof. repeat split. Qed.

(** C4, as amended: a username with a character other than the
    underscore is accepted, on create and on update, exactly when it has 3
    to 50 characters and each is an underscore or alphanumeric as
    [str.isalnum] has it, and is refused with the 422 otherwise; when its
    characters are all ASCII that is exactly when it is in the language of
    the regular expression. *)
Theorem username_accepted (v : string) :
  replace_with_empty "_" v <> "" ->
  UserBase.username v =
    (if (length_ok v && str_forall username_char v)%bool
     then Ok v else Raise validation_error) /\
  UserUpdate.username_field (Some v) =
    (if (length_ok v && str_forall username_char v)%bool
     then Ok (Some v) else Raise validation_error) /\
  status_code validation_error = 422 /\
  (str_forall is_ascii v = true ->
   (UserBase.username v = Ok v <-> username_regex v = true) /\
   (UserUpdate.username_field (Some v) = Ok (Some v) <-> username_regex v = true)).
Proof.
  intros Hne.
  assert (Hbase : UserBase.username v =
            if (length_ok v && str_forall username_char v)%bool
            then Ok v else Raise validation_error).
  { unfold UserBase.username, UserBase.username_alphanumeric.
    rewrite Field_str_length_ok. destruct (length_ok v); [|reflexivity].
    cbn [bind andb]. rewrite (isalnum_replace v Hne).
    now destruct (str_forall username_char v). }
  assert (Hupd : UserUpdate.username_field (Some v) =
            if (length_ok v && str_forall username_char v)%bool
            then Ok (Some v) else Raise validation_error).
  { unfold UserUpdate.username_field, UserUpdate.username_alphanumeric.
    rewrite Field_str_length_ok. destruct (length_ok v); [|reflexivity].
    cbn [bind andb]. rewrite (isalnum_replace v Hne).
    now destruct (str_forall username_char v). }
  split; [exact Hbase|]. split; [exact Hupd|]. split; [reflexivity|].
  intros Hascii. rewrite Hbase, Hupd. unfold username_regex.
  fold (length_ok v). rewrite <- (str_forall_ascii v Hascii).
  destruct (length_ok v && str_forall username_char v)%bool;
    split; split; congruence.
Qed.

Lemma username_accepted_witness :
  UserBase.username "user_name_123" = Ok "user_name_123" /\
  UserBase.username "user@name!" = Raise validation_error.
Proof.
  split.
  - apply (proj2 (proj1 (proj2 (proj2 (proj2
      (username_accepted "user_name_123" ltac:(discriminate)))) eq_refl))).
    reflexivity.
  - exact (proj1 (username_accepted "user@name!" ltac:(discriminate))).
Defined.

(** * Further properties of the handlers *)

(** ** Lookup by id *)

Lemma sorted_id_injective (db : Table) (a b : User.t) :
  StronglySorted id_lt db -> In a db -> In b db ->
  User.id a = User.id b -> a = b.
Proof.
  intros Hs Ha Hb E.
  destruct (row_split db a Hs Ha) as [q1 [q2 [Edb _]]].
  rewrite Edb in Hb, Hs. apply in_app_or in Hb.
  destruct Hb as [Hb|[Hb|Hb]]; [|now symmetry|].
  - exfalso. apply (sorted_ids_differ q1 q2 a b Hs); [|now symmetry].
    apply in_or_app. now left.
  - exfalso. apply (sorted_ids_differ q1 q2 a b Hs); [|now symmetry].
    apply in_or_app. now right.
Qed.

(** X1: On a table that satisfies the invariant, [get_user] returns a row
    exactly when it is the row of the table with that id. *)
Theorem get_user_finds_the_row (user_id : Z) (db : Table) (u : User.t) :
  wf db ->
  (get_user user_id db = Ok u <-> In u db /\ User.id u = user_id).
Proof.
  intros Hwf. split; [apply get_user_Ok_In|].
  intros [Hu Hid]. destruct (get_user_present user_id db u Hu Hid)
    as [r [Hr [Hin Hrid]]].
  rewrite Hr. f_equal.
  apply (sorted_id_injective db); try assumption; [apply Hwf|congruence].
Qed.

Lemma get_user_finds_the_row_witness :
  wf multiple_users /\ get_user 2 multiple_users = Ok jane.
Proof.
  split; [exact wf_multiple_users|].
  apply (proj2 (get_user_finds_the_row 2 multiple_users jane wf_multiple_users)).
  split; [right; now left|reflexivity].
Defined.

(** ** Create *)

Lemma create_user_Ok (now : Z) (user : UserCreate.t) (db db' : Table)
    (row : User.t) :
  create_user now user db = (db', Ok row) ->
  db' = (db ++ [row])%list /\
  row = User.mk (next_rowid db)
          (UserCreate.username user) (UserCreate.email user)
          (UserCreate.first_name user) (UserCreate.last_name user)
          (UserCreate.role user) (UserCreate.active user) now now /\
  (forall u, In u db -> User.username u <> UserCreate.username user) /\
  (forall u, In u db -> User.email u <> UserCreate.email user).
Proof.
  unfold create_user.
  destruct (first (filter (str_col_eq User.username _) db)) eqn:Eu;
    [discriminate|].
  destruct (first (filter (str_col_eq User.email _) db)) eqn:Ee;
    [discriminate|].
  unfold flush_insert.
  destruct (taken User.username _ db); [discriminate|].
  destruct (taken User.email _ db); [discriminate|].
  intros [= <- <-]. split; [reflexivity|]. split; [reflexivity|].
  rewrite first_filter_None in Eu, Ee. unfold str_col_eq in Eu, Ee.
  split; intros u Hu; apply String.eqb_neq; auto.
Qed.

Lemma get_user_last (db : Table) (row : User.t) :
  Forall (fun u => id_lt u row) db ->
  get_user (User.id row) (db ++ [row])%list = Ok row.
Proof.
  intros H. apply get_user_Ok. rewrite filter_app.
  rewrite (filter_none (fun r => User.id r =? User.id row) db).
  - cbn. now rewrite Z.eqb_refl.
  - rewrite Forall_forall in H. intros u Hu. apply Z.eqb_neq.
    specialize (H u Hu). unfold id_lt in H. lia.
Qed.

(** X2: A create request whose username and email no row has is stored: the
    new row goes last, carries the fields of the request, an id that is
    positive and above every id of the table, and the clock reading as
    both timestamps; a get of its id returns it. *)
Theorem create_user_stores (now : Z) (user : UserCreate.t) (db : Table) :
  (forall u, In u db -> User.username u <> UserCreate.username user) ->
  (forall u, In u db -> User.email u <> UserCreate.email user) ->
  exists row,
    create_user now user db = ((db ++ [row])%list, Ok row) /\
    row = User.mk (next_rowid db)
            (UserCreate.username user) (UserCreate.email user)
            (UserCreate.first_name user) (UserCreate.last_name user)
            (UserCreate.role user) (UserCreate.active user) now now /\
    0 < User.id row /\
    (forall u, In u db -> User.id u < User.id row) /\
    User.created_at row = User.updated_at row /\
    get_user (User.id row) (db ++ [row])%list = Ok row.
Proof.
  intros Hu He.
  destruct (create_user_succeeds now user db Hu He) as [row [Hc _]].
  exists row. split; [exact Hc|].
  destruct (create_user_Ok _ _ _ _ _ Hc) as [_ [Erow _]].
  split; [exact Erow|].
  destruct (next_rowid_above db) as [Habove Hpos].
  assert (Eid : User.id row = next_rowid db) by now rewrite Erow.
  split; [now rewrite Eid|].
  split; [rewrite Eid; now apply Forall_forall|].
  split; [now rewrite Erow|].
  apply get_user_last. unfold id_lt. now rewrite Eid.
Qed.

Lemma create_user_stores_witness :
  exists row,
    create_user 300
      (UserCreate.mk "new_user" "new@example.com" "New" "User" GUEST false)
      multiple_users = ((multiple_users ++ [row])%list, Ok row) /\
    User.id row = 3 /\ User.created_at row = User.updated_at row.
Proof.
  destruct (create_user_stores 300
              (UserCreate.mk "new_user" "new@example.com" "New" "User" GUEST false)
              multiple_users) as [row [Hc [Erow [_ [_ [Ht _]]]]]].
  - intros u [<-|[<-|[]]]; discriminate.
  - intros u [<-|[<-|[]]]; discriminate.
  - exists row. split; [exact Hc|]. split; [now rewrite Erow|exact Ht].
Defined.

(** X3: The pre-checks of [create_user] cover the constraints of the store:
    whatever the request and the table, the handler never answers with
    the generic conflict of its [IntegrityError] branch. *)
Theorem create_user_no_constraint_conflict (now : Z) (user : UserCreate.t)
    (db : Table) :
  snd (create_user now user db) <> Raise create_conflict.
Proof.
  unfold create_user.
  destruct (first (filter (str_col_eq User.username _) db)) eqn:Eu;
    [discriminate|].
  destruct (first (filter (str_col_eq User.email _) db)) eqn:Ee;
    [discriminate|].
  apply first_str_col_eq_None in Eu, Ee. unfold flush_insert.
  rewrite Eu, Ee. discriminate.
Qed.

(** X4: Once a create has succeeded, a create with the same username is
    refused for the username, and one with another username that no row
    has and the same email is refused for the email. *)
Theorem create_user_twice (now now' : Z) (user user' : UserCreate.t)
    (db db' : Table) (row : User.t) :
  create_user now user db = (db', Ok row) ->
  (UserCreate.username user' = UserCreate.username user ->
   create_user now' user' db' =
     (db', Raise (UserAlreadyExistsException "username"
                    (UserCreate.username user'))))
  /\
  (UserCreate.username user' <> UserCreate.username user ->
   (forall u, In u db -> User.username u <> UserCreate.username user') ->
   UserCreate.email user' = UserCreate.email user ->
   create_user now' user' db' =
     (db', Raise (UserAlreadyExistsException "email"
                    (UserCreate.email user')))).
Proof.
  intros Hc. destruct (create_user_Ok _ _ _ _ _ Hc) as [-> [Erow _]].
  assert (Hin : In row (db ++ [row])%list) by (apply in_or_app; right; now left).
  split.
  - intros E. unfold create_user.
    destruct (first_str_col_eq_Some User.username
                (UserCreate.username user') (db ++ [row])%list) as [r ->];
      [|reflexivity].
    exists row. split; [exact Hin|]. now rewrite Erow, E.
  - intros Hne Hfree E. unfold create_user.
    rewrite (first_str_col_eq_free User.username).
    + destruct (first_str_col_eq_Some User.email
                  (UserCreate.email user') (db ++ [row])%list) as [r ->];
        [|reflexivity].
      exists row. split; [exact Hin|]. now rewrite Erow, E.
    + intros u Hu. apply in_app_or in Hu. destruct Hu as [Hu|[<-|[]]].
      * now apply Hfree.
      * rewrite Erow. cbn. congruence.
Qed.

Lemma create_user_twice_witness :
  create_user 400
    (UserCreate.mk "john_doe" "different@example.com" "J" "D" USER true)
    [john] =
  ([john], Raise (UserAlreadyExistsException "username" "john_doe")).
Proof.
  apply (proj1 (create_user_twice 100 400
           (UserCreate.mk "john_doe" "john.doe@example.com" "John" "Doe" USER true)
           (UserCreate.mk "john_doe" "different@example.com" "J" "D" USER true)
           [] [john] john eq_refl)).
  reflexivity.
Defined.

(** ** All or nothing *)

(** X5: A request that is answered with an error leaves the table as it was,
    whichever of the three writing handlers it went to. *)
Theorem failed_request_leaves_table (now user_id : Z) (user : UserCreate.t)
    (upd : UserUpdate.t) (db : Table) (e : Exc) :
  (snd (create_user now user db) = Raise e ->
   fst (create_user now user db) = db) /\
  (snd (update_user now user_id upd db) = Raise e ->
   fst (update_user now user_id upd db) = db) /\
  (snd (delete_user user_id db) = Raise e ->
   fst (delete_user user_id db) = db).
Proof.
  split; [|split].
  - unfold create_user.
    destruct (first (filter (str_col_eq User.username _) db)); [reflexivity|].
    destruct (first (filter (str_col_eq User.email _) db)); [reflexivity|].
    destruct (flush_insert now user db); [discriminate|reflexivity].
  - rewrite update_user_unfold.
    destruct (first (filter _ db)); [|reflexivity].
    destruct (bind _ _); [|reflexivity].
    destruct (flush_update _ _ _ _); [discriminate|reflexivity].
  - unfold delete_user.
    destruct (first (filter _ db)); [discriminate|reflexivity].
Qed.

Lemma failed_request_leaves_table_witness :
  fst (update_user 200 1
         (UserUpdate.mk (Some (Some "new_name")) (Some (Some "jane.smith@example.com"))
            (Some (Some "J")) None None None)
         multiple_users) = multiple_users.
Proof.
  apply (proj1 (proj2 (failed_request_leaves_table 200 1
           (UserCreate.mk "a" "b" "c" "d" USER true)
           (UserUpdate.mk (Some (Some "new_name"))
              (Some (Some "jane.smith@example.com")) (Some (Some "J"))
              None None None)
           multiple_users
           (UserAlreadyExistsException "email" "jane.smith@example.com")))).
  reflexivity.
Defined.

(** ** Update *)

(** X6: An update of an id that no row has raises the 404 before it looks
    at the request, and leaves the table as it was. *)
Theorem update_user_absent (now user_id : Z) (upd : UserUpdate.t) (db : Table) :
  (forall u, In u db -> User.id u <> user_id) ->
  update_user now user_id upd db =
    (db, Raise (UserNotFoundException (Some user_id) None)).
Proof.
  intros H. rewrite update_user_unfold.
  replace (first (filter (fun u => User.id u =? user_id) db)) with (@None User.t);
    [reflexivity|].
  symmetry. apply first_filter_None. intros u Hu. apply Z.eqb_neq. auto.
Qed.

Lemma update_user_absent_witness :
  update_user 200 99999
    (UserUpdate.mk (Some (Some "jane_smith")) None None None None None)
    multiple_users =
  (multiple_users, Raise (UserNotFoundException (Some 99999) None)).
Proof.
  apply update_user_absent.
  intros u [<-|[<-|[]]]; discriminate.
Defined.

Lemma precheck_Ok_storable (field : string) (col : User.t -> string)
    (old : User.t) (db : Table) (value : option (option string)) :
  precheck field col value old db = Ok tt ->
  value = Some None \/ storable col old db value.
Proof.
  destruct value as [[v|]|]; [|now left|now right].
  unfold precheck. cbn [optional_str_eqb storable].
  destruct (String.eqb_spec v (col old)) as [E|E]; cbn [negb].
  - intros _. right. now left.
  - destruct (first (filter (str_col_eq col (Some v)) db)) eqn:Ef;
      [discriminate|].
    intros _. right. right. rewrite first_filter_None in Ef.
    intros u Hu. specialize (Ef u Hu). unfold str_col_eq in Ef.
    now apply String.eqb_neq.
Qed.

Lemma is_null_false {A : Type} (value : option (option A)) :
  is_null value = false -> not_null value.
Proof.
  unfold not_null. destruct value as [[v|]|]; simpl; congruence.
Qed.

Lemma updated_row_null (now : Z) (upd : UserUpdate.t) (old : User.t) :
  has_null upd = true ->
  updated_row now old (setattrs upd (loaded old)) = None.
Proof.
  unfold has_null, updated_row, setattrs, loaded.
  cbn [Attrs.username Attrs.email Attrs.first_name Attrs.last_name
       Attrs.role Attrs.active].
  destruct upd as [fu fe ff fl fr fa].
  cbn [UserUpdate.username UserUpdate.email UserUpdate.first_name
       UserUpdate.last_name UserUpdate.role UserUpdate.active].
  destruct fu as [[?|]|]; cbn [setattr is_null orb]; [|reflexivity|];
    (destruct fe as [[?|]|]; cbn [setattr is_null orb]; [|reflexivity|]);
    (destruct ff as [[?|]|]; cbn [setattr is_null orb]; [|reflexivity|]);
    (destruct fl as [[?|]|]; cbn [setattr is_null orb]; [|reflexivity|]);
    (destruct fr as [[?|]|]; cbn [setattr is_null orb]; [|reflexivity|]);
    (destruct fa as [[?|]|]; cbn [setattr is_null orb];
       [discriminate|reflexivity|discriminate]).
Qed.

Lemma flush_update_null (now : Z) (upd : UserUpdate.t) (old : User.t)
    (db : Table) :
  has_null upd = true ->
  flush_update now old (setattrs upd (loaded old)) db = IntegrityError.
Proof.
  intros Hn. pose proof (updated_row_null now upd old Hn) as Hrow.
  unfold flush_update. rewrite Hrow.
  destruct (unmodified old _) eqn:Eu; [|reflexivity].
  apply unmodified_loaded in Eu. rewrite Eu in Hrow.
  unfold updated_row, loaded in Hrow. discriminate.
Qed.

(** X7: The three ways an update of an existing row ends: with the
    already-exists error of a pre-check; with the generic conflict, when
    the pre-checks pass and the request sets some field to null; with
    the updated row, when the pre-checks pass and no field is null.  So a
    request without a null never meets the generic conflict. *)
Theorem update_user_outcomes (now user_id : Z) (upd : UserUpdate.t)
    (db : Table) (old : User.t) :
  get_user user_id db = Ok old ->
  (exists field value,
     update_user now user_id upd db =
       (db, Raise (UserAlreadyExistsException field value)))
  \/
  (has_null upd = true /\
   update_user now user_id upd db = (db, Raise update_conflict))
  \/
  (has_null upd = false /\
   exists db' row, update_user now user_id upd db = (db', Ok row)).
Proof.
  intros Hold. pose proof (proj1 (get_user_Ok _ _ _) Hold) as Hfirst.
  destruct (precheck_cases "username" User.username old db
              (UserUpdate.username upd)) as [Pu|[v [_ Pu]]].
  2:{ left. exists "username", v.
      now rewrite update_user_unfold, Hfirst, Pu. }
  destruct (precheck_cases "email" User.email old db
              (UserUpdate.email upd)) as [Pe|[v [_ Pe]]].
  2:{ left. exists "email", v.
      now rewrite update_user_unfold, Hfirst, Pu, Pe. }
  right. destruct (has_null upd) eqn:Hn.
  - left. split; [reflexivity|].
    rewrite update_user_unfold, Hfirst, Pu, Pe. cbn [bind].
    now rewrite flush_update_null.
  - right. split; [reflexivity|].
    unfold has_null in Hn. repeat (apply orb_false_iff in Hn; destruct Hn as [Hn ?]).
    apply update_user_succeeds with (old := old); try assumption;
      try (now apply is_null_false).
    + destruct (precheck_Ok_storable _ _ _ _ _ Pu) as [E|S]; [|exact S].
      rewrite E in Hn. discriminate.
    + destruct (precheck_Ok_storable _ _ _ _ _ Pe) as [E|S]; [|exact S].
      match goal with H : is_null (UserUpdate.email upd) = false |- _ =>
        rewrite E in H; discriminate H end.
Qed.

Lemma update_user_outcomes_witness :
  get_user 2 multiple_users = Ok jane /\
  update_user 200 2
    (UserUpdate.mk None None None None (Some None) None) multiple_users =
    (multiple_users, Raise update_conflict).
Proof.
  split; [reflexivity|].
  destruct (update_user_outcomes 200 2
              (UserUpdate.mk None None None None (Some None) None)
              multiple_users jane eq_refl)
    as [[field [value H]]|[[_ H]|[H _]]].
  - discriminate H.
  - exact H.
  - discriminate H.
Defined.

Lemma setattr_again {A : Type} (value : option (option A)) (old new : A) :
  setattr value (Some old) = Some new ->
  setattr value (Some new) = Some new.
Proof. destruct value as [v|]; simpl; congruence. Qed.

Lemma precheck_after (field : string) (col : User.t -> string)
    (value : option (option string)) (old row : User.t) (db' : Table) :
  setattr value (Some (col old)) = Some (col row) ->
  precheck field col value row db' = Ok tt.
Proof.
  destruct value as [v|]; [|reflexivity]. cbn [setattr]. intros ->.
  apply precheck_own.
Qed.

(** X8: Sending a successful update once more changes nothing: whatever the
    clock reads, the second answer is the row the first one returned and
    the table stays as the first one left it. *)
Theorem update_user_repeat (now now' user_id : Z) (upd : UserUpdate.t)
    (db db' : Table) (old row : User.t) :
  get_user user_id db = Ok old ->
  update_user now user_id upd db = (db', Ok row) ->
  update_user now' user_id upd db' = (db', Ok row).
Proof.
  intros Hold Hupd. pose proof (update_user_Ok _ _ _ _ _ _ _ Hold Hupd) as Hf.
  apply flush_update_Flushed in Hf. destruct Hf as [Ho [Eid [_ Hcase]]].
  pose proof (get_user_Ok_In _ _ _ Hold) as [_ Hid].
  assert (Hfirst : first (filter (fun u => User.id u =? user_id) db') = Some row).
  { destruct Hcase as [[_ [-> ->]]|[_ [_ ->]]].
    - now apply get_user_Ok.
    - apply first_filter_replace with (u := old);
        [now apply get_user_Ok|congruence]. }
  pose proof Ho as Ho'. unfold setattrs, loaded in Ho'.
  cbn [Attrs.username Attrs.email Attrs.first_name Attrs.last_name
       Attrs.role Attrs.active] in Ho'.
  injection Ho' as Eu Ee Ef El Er Ea.
  rewrite update_user_unfold, Hfirst.
  rewrite (precheck_after _ User.username _ old row db' Eu).
  rewrite (precheck_after _ User.email _ old row db' Ee).
  cbn [bind].
  assert (Hsame : setattrs upd (loaded row) = loaded row).
  { unfold setattrs, loaded.
    cbn [Attrs.username Attrs.email Attrs.first_name Attrs.last_name
         Attrs.role Attrs.active].
    now rewrite (setattr_again _ _ _ Eu), (setattr_again _ _ _ Ee),
      (setattr_again _ _ _ Ef), (setattr_again _ _ _ El),
      (setattr_again _ _ _ Er), (setattr_again _ _ _ Ea). }
  unfold flush_update. rewrite Hsame.
  now rewrite (proj2 (unmodified_loaded row (loaded row)) eq_refl).
Qed.

Lemma update_user_repeat_witness :
  update_user 999 1 new_first_name [john_renamed; jane] =
    ([john_renamed; jane], Ok john_renamed).
Proof.
  exact (update_user_repeat 200 999 1 new_first_name multiple_users
           [john_renamed; jane] john john_renamed eq_refl eq_refl).
Defined.

Lemma map_id_replace_row (row : User.t) (db : Table) :
  map User.id (replace_row row db) = map User.id db.
Proof.
  unfold replace_row. rewrite map_map. apply map_ext. intros r.
  destruct (Z.eqb_spec (User.id r) (User.id row)); congruence.
Qed.

(** X9: An update never adds, removes, renumbers or reorders rows: whatever
    it is sent and however it ends, the ids of the table are the ones
    there were, in the same order. *)
Theorem update_user_keeps_ids (now user_id : Z) (upd : UserUpdate.t)
    (db : Table) :
  map User.id (fst (update_user now user_id upd db)) = map User.id db.
Proof.
  rewrite update_user_unfold.
  destruct (first (filter _ db)) as [old|]; [|reflexivity].
  destruct (bind _ _); [|reflexivity].
  unfold flush_update.
  destruct (unmodified old _); [reflexivity|].
  destruct (updated_row now old _); [|reflexivity].
  destruct (unique_broken User.username _ _ _); [reflexivity|].
  destruct (unique_broken User.email _ _ _); [reflexivity|].
  apply map_id_replace_row.
Qed.

(** ** Delete *)

(** X10: On a table that satisfies the invariant a successful delete takes
    out one row: the count of the table goes down by one. *)
Theorem delete_user_one_row (user_id : Z) (db db' : Table) :
  wf db ->
  delete_user user_id db = (db', Ok tt) ->
  count db' = count db - 1.
Proof.
  intros Hwf. unfold delete_user.
  destruct (first (filter _ db)) as [u|] eqn:Eu; [|discriminate].
  intros [= <-]. apply first_filter_In in Eu. destruct Eu as [Hin _].
  destruct (row_split db u (wf_sorted db Hwf) Hin) as [q1 [q2 [Edb [Eo _]]]].
  unfold flush_delete, count. rewrite Eo, Edb, !length_app. cbn [List.length].
  lia.
Qed.

Lemma delete_user_one_row_witness :
  count [jane] = count multiple_users - 1.
Proof.
  exact (delete_user_one_row 1 multiple_users [jane] wf_multiple_users eq_refl).
Defined.

(** X11: Deleting a row of a table that satisfies the invariant frees its
    username and its email: a create request with both is then stored. *)
Theorem delete_user_frees_values (now user_id : Z) (user : UserCreate.t)
    (db db' : Table) (u : User.t) :
  wf db ->
  get_user user_id db = Ok u ->
  delete_user user_id db = (db', Ok tt) ->
  UserCreate.username user = User.username u ->
  UserCreate.email user = User.email u ->
  exists row, create_user now user db' = ((db' ++ [row])%list, Ok row).
Proof.
  intros Hwf Hget. pose proof (proj1 (get_user_Ok _ _ _) Hget) as Hfirst.
  unfold delete_user. rewrite Hfirst. intros [= <-] Eun Eem.
  apply first_filter_In in Hfirst. destruct Hfirst as [Hin _].
  destruct (row_split db u (wf_sorted db Hwf) Hin) as [q1 [q2 [Edb [Eo _]]]].
  unfold flush_delete. rewrite Eo.
  pose proof (wf_usernames db Hwf) as Hnu. pose proof (wf_emails db Hwf) as Hne.
  rewrite Edb, map_app in Hnu, Hne. cbn [map] in Hnu, Hne.
  apply NoDup_remove_2 in Hnu, Hne. rewrite <- map_app in Hnu, Hne.
  destruct (create_user_succeeds now user (q1 ++ q2)%list) as [row [Hc _]].
  - intros r Hr E. apply Hnu. rewrite <- Eun, <- E. now apply in_map.
  - intros r Hr E. apply Hne. rewrite <- Eem, <- E. now apply in_map.
  - now exists row.
Qed.

Lemma delete_user_frees_values_witness :
  exists row,
    create_user 500
      (UserCreate.mk "john_doe" "john.doe@example.com" "John" "Doe" USER true)
      [jane] = (([jane] ++ [row])%list, Ok row).
Proof.
  exact (delete_user_frees_values 500 1
           (UserCreate.mk "john_doe" "john.doe@example.com" "John" "Doe" USER true)
           multiple_users [jane] john wf_multiple_users
           eq_refl eq_refl eq_refl eq_refl).
Defined.

(** ** List *)

Lemma In_skipn_rows (n : nat) (q : list User.t) (u : User.t) :
  In u (skipn n q) -> In u q.
Proof.
  revert q. induction n as [|n IH]; intros [|r q]; simpl; try tauto.
  intros H. right. now apply IH.
Qed.

Lemma In_page (skip limit_ : Z) (q : list User.t) (u : User.t) :
  In u (limit limit_ (offset skip q)) -> In u q.
Proof.
  unfold limit, offset. destruct (limit_ <? 0); intros H.
  - now apply In_skipn_rows in H.
  - apply In_firstn_rows in H. now apply In_skipn_rows in H.
Qed.

(** X12: Every row on the page of a list request is a row of the table that
    passes the filters: its active flag is the one asked for, and when
    the role asked for is the value of a member, its role is that
    member. *)
Theorem get_users_page_sound (skip limit_ : Z) (active : option bool)
    (role : option string) (db : Table) (u : User.t) :
  In u (UserListResponse.users (get_users skip limit_ active role db)) ->
  In u db /\
  (forall a, active = Some a -> User.active u = a) /\
  (forall m, role = Some (role_value m) -> User.role u = m).
Proof.
  rewrite get_users_query. cbn [UserListResponse.users]. intros H.
  apply In_page, filter_In in H. destruct H as [Hin Hm].
  split; [exact Hin|]. split.
  - apply matches_spec in Hm. apply Hm.
  - intros m ->. unfold matches in Hm. apply andb_true_iff in Hm.
    destruct Hm as [_ Hr].
    assert (Hv : role_col_eq (role_value m) u = true) by (now destruct m).
    rewrite role_col_eq_value in Hv. now destruct (User.role u), m.
Qed.

Lemma get_users_page_sound_witness :
  In jane multiple_users /\
  (forall a, Some true = Some a -> User.active jane = a) /\
  (forall m, Some "admin" = Some (role_value m) -> User.role jane = m).
Proof.
  apply (get_users_page_sound 0 100 (Some true) (Some "admin") multiple_users jane).
  now left.
Defined.

Lemma firstn_join (a b : nat) (q : list User.t) :
  (firstn a q ++ firstn b (skipn a q))%list = firstn (a + b) q.
Proof.
  revert q. induction a as [|a IH]; intros q; [reflexivity|].
  destruct q as [|r q]; cbn [firstn skipn Nat.add app].
  - now rewrite firstn_nil.
  - now rewrite IH.
Qed.

(** X13: Consecutive pages join up: the page of [k] rows after [skip],
    followed by the page of [k'] rows after [skip + k], is the page of
    [k + k'] rows after [skip]; no row is repeated or passed over, and
    the total is the same on each. *)
Theorem get_users_pages_join (skip k k' : Z) (active : option bool)
    (role : option string) (db : Table) :
  0 <= skip -> 0 <= k -> 0 <= k' ->
  (UserListResponse.users (get_users skip k active role db) ++
   UserListResponse.users (get_users (skip + k) k' active role db))%list =
  UserListResponse.users (get_users skip (k + k') active role db) /\
  UserListResponse.total (get_users (skip + k) k' active role db) =
  UserListResponse.total (get_users skip k active role db).
Proof.
  intros Hs Hk Hk'. rewrite !get_users_query.
  cbn [UserListResponse.users UserListResponse.total]. split; [|reflexivity].
  unfold limit, offset.
  destruct (Z.ltb_spec k 0); [lia|].
  destruct (Z.ltb_spec k' 0); [lia|].
  destruct (Z.ltb_spec (k + k') 0); [lia|].
  rewrite !Z2Nat.inj_add by lia.
  rewrite (Nat.add_comm (Z.to_nat skip) (Z.to_nat k)), <- skipn_skipn.
  apply firstn_join.
Qed.

Lemma get_users_pages_join_witness :
  (UserListResponse.users (get_users 0 1 None None multiple_users) ++
   UserListResponse.users (get_users (0 + 1) 1 None None multiple_users))%list =
  UserListResponse.users (get_users 0 (1 + 1) None None multiple_users).
Proof.
  apply (get_users_pages_join 0 1 1 None None multiple_users); lia.
Defined.

(** X14: For query parameters that parse, [skip] and [limit] as integers
    and [active] as a boolean, the list route answers 422 exactly when
    [skip] is negative or [limit] is outside 1..1000, whatever the values
    of the filters and the table, and answers with a page otherwise. *)
Theorem get_users_route_validation (skip limit_ : option Z)
    (active : option bool) (role : option string) (db : Table) :
  (get_users_route skip limit_ active role db = Raise validation_error <->
   ~ (skip_valid skip /\ limit_valid limit_)) /\
  ((exists r, get_users_route skip limit_ active role db = Ok r) <->
   skip_valid skip /\ limit_valid limit_).
Proof.
  assert (Hdec : (skip_valid skip /\ limit_valid limit_) \/
                 ~ (skip_valid skip /\ limit_valid limit_)).
  { unfold skip_valid, limit_valid. destruct skip as [s|], limit_ as [l|].
    - destruct (Z_le_dec 0 s), (Z_le_dec 1 l), (Z_le_dec l 1000);
        solve [left; lia | right; lia].
    - destruct (Z_le_dec 0 s); solve [left; split; [lia|exact I] | right; lia].
    - destruct (Z_le_dec 1 l), (Z_le_dec l 1000);
        solve [left; split; [exact I|lia] | right; lia].
    - left. split; exact I. }
  split; split.
  - intros H [Hs Hl]. rewrite get_users_route_Ok in H by assumption.
    discriminate.
  - apply get_users_route_invalid.
  - intros [r Hr]. destruct Hdec as [H|H]; [exact H|].
    rewrite get_users_route_invalid in Hr by assumption. discriminate.
  - intros [Hs Hl]. eexists. now apply get_users_route_Ok.
Qed.

Lemma get_users_route_validation_witness :
  get_users_route (Some (-1)) None None None multiple_users =
    Raise validation_error /\
  get_users_route None (Some 0) (Some true) (Some "admin") [] =
    Raise validation_error.
Proof.
  split.
  - apply (proj2 (proj1 (get_users_route_validation (Some (-1)) None None None
                           multiple_users))).
    intros [H _]. simpl in H. lia.
  - apply (proj2 (proj1 (get_users_route_validation None (Some 0) (Some true)
                           (Some "admin") []))).
    intros [_ H]. simpl in H. lia.
Defined.

(** ** What every table the service holds satisfies *)

(** X16: Whatever requests were served since the table was empty, no two rows
    share an id, a username or an email, and every id is positive. *)
Theorem service_keeps_rows_distinct (db : Table) (a b : User.t) :
  reachable db -> In a db -> In b db ->
  0 < User.id a /\
  (User.id a = User.id b -> a = b) /\
  (User.username a = User.username b -> a = b) /\
  (User.email a = User.email b -> a = b).
Proof.
  intros Hr Ha Hb. pose proof (reachable_wf db Hr) as [Hs Hp Hu He].
  split; [|split; [|split]].
  - rewrite Forall_forall in Hp. now apply Hp.
  - now apply (sorted_id_injective db).
  - now apply (NoDup_map_injective User.username db).
  - now apply (NoDup_map_injective User.email db).
Qed.

Lemma service_keeps_rows_distinct_witness :
  reachable multiple_users /\
  john <> jane /\
  User.id john <> User.id jane /\
  User.username john <> User.username jane /\
  User.email john <> User.email jane.
Proof.
  assert (Hr : reachable multiple_users).
  { exact (reach_create 101
             (UserCreate.mk "jane_smith" "jane.smith@example.com" "Jane" "Smith"
                ADMIN true)
             [john]
             (reach_create 100
                (UserCreate.mk "john_doe" "john.doe@example.com" "John" "Doe"
                   USER true)
                [] reach_empty)). }
  assert (Hne : john <> jane) by discriminate.
  destruct (service_keeps_rows_distinct multiple_users john jane Hr
              (or_introl eq_refl) (or_intror (or_introl eq_refl)))
    as [_ [Hid [Hu He]]].
  split; [exact Hr|]. split; [exact Hne|].
  split; [|split]; intros E; apply Hne; auto.
Defined.

Lemma timestamps_ordered_later (t t' : Z) (db : Table) :
  t <= t' -> Forall (timestamps_ordered t) db ->
  Forall (timestamps_ordered t') db.
Proof.
  intros Ht. apply Forall_impl. unfold timestamps_ordered. intros u. lia.
Qed.

Lemma Forall_replace_row (P : User.t -> Prop) (row : User.t) (db : Table) :
  P row -> Forall P db -> Forall P (replace_row row db).
Proof.
  intros Hrow Hdb. unfold replace_row. rewrite Forall_map.
  eapply Forall_impl; [|exact Hdb]. intros r Hr.
  now destruct (User.id r =? User.id row).
Qed.

(** X17: When the clock never goes back, every row has its [updated_at] at or
    after its [created_at], and neither is past the last reading of the
    clock. *)
Theorem service_keeps_timestamps_ordered (t : Z) (db : Table) :
  history t db -> Forall (timestamps_ordered t) db.
Proof.
  induction 1 as [t|t now user db _ IH Ht|t now user_id upd db _ IH Ht
                  |t user_id db _ IH].
  - constructor.
  - pose proof (timestamps_ordered_later t now db Ht IH) as IH'.
    unfold create_user.
    destruct (first (filter (str_col_eq User.username _) db)); [exact IH'|].
    destruct (first (filter (str_col_eq User.email _) db)); [exact IH'|].
    unfold flush_insert.
    destruct (taken User.username _ db); [exact IH'|].
    destruct (taken User.email _ db); [exact IH'|].
    cbn [fst]. apply Forall_app. split; [exact IH'|].
    constructor; [|constructor].
    unfold timestamps_ordered. cbn. lia.
  - pose proof (timestamps_ordered_later t now db Ht IH) as IH'.
    rewrite update_user_unfold.
    destruct (first (filter _ db)) as [old|] eqn:Eold; [|exact IH'].
    destruct (bind _ _); [|exact IH'].
    destruct (flush_update now old _ db) as [db' row|] eqn:Ef; [|exact IH'].
    cbn [fst]. apply flush_update_Flushed in Ef.
    destruct Ef as [_ [_ [Ecr [[_ [_ ->]]|[_ [Enow ->]]]]]]; [exact IH'|].
    apply Forall_replace_row; [|exact IH'].
    apply first_filter_In in Eold. destruct Eold as [Hin _].
    rewrite Forall_forall in IH. specialize (IH old Hin).
    unfold timestamps_ordered in *. lia.
  - unfold delete_user. destruct (first (filter _ db)) as [u|]; [|exact IH].
    cbn [fst]. unfold flush_delete, others.
    rewrite Forall_forall in *. intros x Hx. apply filter_In in Hx. now apply IH.
Qed.

Lemma service_keeps_timestamps_ordered_witness :
  Forall (timestamps_ordered 100) [john].
Proof.
  exact (service_keeps_timestamps_ordered 100 [john]
           (hist_create 100 100
              (UserCreate.mk "john_doe" "john.doe@example.com" "John" "Doe"
                 USER true)
              [] (hist_empty 100) (Z.le_refl 100))).
Defined.

(** ** The detail of the 404 *)

Lemma str_length_append (x y : string) :
  String.length (x ++ y) = (String.length x + String.length y)%nat.
Proof. induction x as [|c x IH]; simpl; [reflexivity|now rewrite IH]. Qed.

Lemma str_append_inj_r (x y s : string) : (x ++ s = y ++ s)%string -> x = y.
Proof.
  revert y. induction x as [|c x IH]; intros [|d y] H.
  - reflexivity.
  - apply (f_equal String.length) in H. cbn [append] in H.
    cbn [String.length] in H. rewrite str_length_append in H. lia.
  - apply (f_equal String.length) in H. cbn [append] in H.
    cbn [String.length] in H. rewrite str_length_append in H. lia.
  - cbn [append] in H. injection H as -> H. f_equal. now apply IH.
Qed.

Lemma str_of_int_inj (a b : Z) : str_of_int a = str_of_int b -> a = b.
Proof.
  unfold str_of_int. intros H.
  assert (Hnn : forall z, Z.to_int z <> Decimal.Pos Decimal.Nil /\
                          Z.to_int z <> Decimal.Neg Decimal.Nil).
  { intros [|p|p]; cbn; split; try discriminate;
      intros [= E]; now apply (Unsigned.to_uint_nonnil p). }
  apply (f_equal NilZero.int_of_string) in H.
  rewrite !NilZero.isi in H by apply Hnn.
  injection H as H. apply (f_equal Z.of_int) in H.
  now rewrite !DecimalZ.of_to in H.
Qed.

(** X18: The detail of the 404 tells the ids apart: for two ids other than 0
    the details are the same only when the ids are, and neither is the
    detail raised for the id 0. *)
Theorem not_found_detail_identifies_id (a b : Z) :
  a <> 0 -> b <> 0 ->
  (detail (UserNotFoundException (Some a) None) =
   detail (UserNotFoundException (Some b) None) -> a = b) /\
  detail (UserNotFoundException (Some a) None) <>
  detail (UserNotFoundException (Some 0) None).
Proof.
  intros Ha Hb. unfold UserNotFoundException, int_truthy.
  apply Z.eqb_neq in Ha, Hb. rewrite Ha, Hb.
  cbn [negb detail Z.eqb str_of_optional_int str_of_optional_str].
  split.
  - intros H. cbn [append] in H. injection H as H.
    apply str_append_inj_r in H. now apply str_of_int_inj.
  - cbn [append]. discriminate.
Qed.

Lemma not_found_detail_identifies_id_witness :
  detail (UserNotFoundException (Some 99999) None) <>
  detail (UserNotFoundException (Some 0) None).
Proof.
  apply (not_found_detail_identifies_id 99999 1); discriminate.
Defined.

(** ** The name validators *)

Lemma Field_str_spec (lo hi : nat) (v : string) :
  Field_str lo hi v =
    if ((lo <=? String.length v)%nat && (String.length v <=? hi)%nat)%bool
    then Ok v else Raise validation_error.
Proof.
  unfold Field_str.
  destruct (String.length v <? lo)%nat eqn:E1,
           (hi <? String.length v)%nat eqn:E2,
           (lo <=? String.length v)%nat eqn:E3,
           (String.length v <=? hi)%nat eqn:E4;
    try reflexivity; exfalso;
    rewrite ?Nat.ltb_lt, ?Nat.ltb_ge, ?Nat.leb_le, ?Nat.leb_gt in *; lia.
Qed.

Lemma lstrip_empty_iff (s : string) :
  lstrip s = "" <-> str_forall char_isspace s = true.
Proof.
  induction s as [|a s IH]; cbn [lstrip str_forall]; [split; reflexivity|].
  destruct (char_isspace a); cbn [andb]; [exact IH|].
  split; discriminate.
Qed.

Lemma lstrip_head (s : string) (a : ascii) (r : string) :
  lstrip s = String a r -> char_isspace a = false.
Proof.
  induction s as [|c s IH]; cbn [lstrip]; [discriminate|].
  destruct (char_isspace c) eqn:Ec; [exact IH|].
  now intros [= <- _].
Qed.

Lemma lstrip_length (s : string) :
  (String.length (lstrip s) <= String.length s)%nat.
Proof.
  induction s as [|c s IH]; cbn [lstrip]; [lia|].
  destruct (char_isspace c); cbn [String.length]; lia.
Qed.

Lemma rstrip_empty_iff (s : string) :
  rstrip s = "" <-> str_forall char_isspace s = true.
Proof.
  induction s as [|a s IH]; cbn [rstrip str_forall]; [split; reflexivity|].
  destruct (rstrip s) as [|d r].
  - destruct (char_isspace a); cbn [andb]; [|split; discriminate].
    split; [intros _; now apply IH|reflexivity].
  - split; [discriminate|]. intros H. apply andb_true_iff in H.
    destruct H as [_ H]. apply IH in H. discriminate.
Qed.

Lemma rstrip_head (s : string) (a : ascii) (r : string) :
  rstrip s = String a r -> exists s', s = String a s'.
Proof.
  destruct s as [|c s]; cbn [rstrip]; [discriminate|].
  destruct (rstrip s); [destruct (char_isspace c)|];
    intros [= <- _]; now exists s.
Qed.

Lemma rstrip_last (s : string) :
  rstrip s <> "" -> not_space (str_last (rstrip s)).
Proof.
  induction s as [|c s IH]; cbn [rstrip]; [congruence|].
  destruct (rstrip s) as [|d r].
  - destruct (char_isspace c) eqn:Ec; [congruence|]. intros _. exact Ec.
  - intros _. cbn [str_last]. apply IH. discriminate.
Qed.

Lemma rstrip_idem (s : string) : rstrip (rstrip s) = rstrip s.
Proof.
  induction s as [|c s IH]; [reflexivity|]. cbn [rstrip].
  destruct (rstrip s) as [|d r] eqn:Er.
  - destruct (char_isspace c) eqn:Ec; [reflexivity|].
    cbn [rstrip]. now rewrite Ec.
  - cbn [rstrip] in *. now rewrite IH.
Qed.

Lemma rstrip_length (s : string) :
  (String.length (rstrip s) <= String.length s)%nat.
Proof.
  induction s as [|c s IH]; cbn [rstrip]; [lia|].
  destruct (rstrip s) as [|d r].
  - destruct (char_isspace c); cbn [String.length]; lia.
  - cbn [String.length] in *. lia.
Qed.

Lemma strip_empty_iff (s : string) :
  strip s = "" <-> str_forall char_isspace s = true.
Proof.
  unfold strip. rewrite rstrip_empty_iff.
  destruct (lstrip s) as [|a r] eqn:El.
  - split; [intros _; now apply lstrip_empty_iff|reflexivity].
  - pose proof (lstrip_head _ _ _ El) as Ha. cbn [str_forall].
    rewrite Ha. cbn [andb]. split; [discriminate|].
    intros H. apply lstrip_empty_iff in H. congruence.
Qed.

Lemma strip_head (s : string) (a : ascii) (r : string) :
  strip s = String a r -> char_isspace a = false.
Proof.
  unfold strip. intros H. destruct (rstrip_head _ _ _ H) as [s' Hs'].
  now apply lstrip_head in Hs'.
Qed.

Lemma strip_idem (s : string) : strip (strip s) = strip s.
Proof.
  destruct (strip s) as [|a r] eqn:E; [reflexivity|].
  pose proof (strip_head _ _ _ E) as Ha.
  unfold strip at 1. cbn [lstrip]. rewrite Ha, <- E.
  unfold strip. apply rstrip_idem.
Qed.

Lemma strip_length (s : string) :
  (String.length (strip s) <= String.length s)%nat.
Proof.
  unfold strip. pose proof (rstrip_length (lstrip s)).
  pose proof (lstrip_length s). lia.
Qed.

Lemma str_nonempty_false (s : string) : str_nonempty s = false <-> s = "".
Proof. destruct s; simpl; split; congruence. Qed.

Lemma str_nonempty_strip (s : string) :
  str_nonempty (strip s) = negb (str_forall char_isspace s).
Proof.
  destruct (str_forall char_isspace s) eqn:E.
  - apply strip_empty_iff in E. now rewrite E.
  - destruct (strip s) eqn:Es; [|reflexivity].
    apply strip_empty_iff in Es. congruence.
Qed.

Lemma UserBase_name_eq (v : string) :
  UserBase_name v =
    (if ((1 <=? String.length v)%nat && (String.length v <=? 50)%nat
         && negb (str_forall char_isspace v))%bool
     then Ok (strip v) else Raise validation_error).
Proof.
  unfold UserBase_name, UserBase_name_not_empty. rewrite Field_str_spec.
  destruct (_ && _)%bool; [|reflexivity].
  cbn [bind andb]. rewrite str_nonempty_strip.
  now destruct (str_forall char_isspace v).
Qed.

Lemma UserUpdate_name_eq (v : string) :
  UserUpdate_name (Some v) =
    (if ((1 <=? String.length v)%nat && (String.length v <=? 50)%nat
         && negb (str_forall char_isspace v))%bool
     then Ok (Some (strip v)) else Raise validation_error).
Proof.
  unfold UserUpdate_name, UserUpdate_name_not_empty. rewrite Field_str_spec.
  destruct (_ && _)%bool; [|reflexivity].
  cbn [bind andb]. rewrite str_nonempty_strip.
  destruct (str_forall char_isspace v) eqn:E; [reflexivity|].
  cbn [negb]. destruct v; [discriminate E|reflexivity].
Qed.

(** X19: A name is accepted, on create and on update, exactly when the value
    sent has 1 to 50 characters and one of them is not whitespace; what
    is kept is the value with the whitespace at both ends taken off.  An
    update may leave the name out or null, which passes. *)
Theorem name_validator_accepts (v : string) :
  UserBase_name v =
    (if ((1 <=? String.length v)%nat && (String.length v <=? 50)%nat
         && negb (str_forall char_isspace v))%bool
     then Ok (strip v) else Raise validation_error) /\
  UserUpdate_name (Some v) =
    (if ((1 <=? String.length v)%nat && (String.length v <=? 50)%nat
         && negb (str_forall char_isspace v))%bool
     then Ok (Some (strip v)) else Raise validation_error) /\
  UserUpdate_name None = Ok None.
Proof.
  split; [apply UserBase_name_eq|]. split; [apply UserUpdate_name_eq|].
  reflexivity.
Qed.

Lemma UserBase_name_Ok (v w : string) :
  UserBase_name v = Ok w ->
  w = strip v /\ w <> "" /\ (String.length v <= 50)%nat.
Proof.
  rewrite UserBase_name_eq.
  destruct (1 <=? String.length v)%nat eqn:E1; [|discriminate].
  destruct (String.length v <=? 50)%nat eqn:E2; [|discriminate].
  destruct (str_forall char_isspace v) eqn:E3; [discriminate|].
  cbn [andb negb]. intros [= <-]. split; [reflexivity|].
  split; [|now apply Nat.leb_le].
  intros E. apply strip_empty_iff in E. congruence.
Qed.

Lemma strip_trimmed (v : string) :
  strip v <> "" ->
  not_space (str_head (strip v)) /\ not_space (str_last (strip v)) /\
  (1 <= String.length (strip v))%nat.
Proof.
  intros Hne. split; [|split].
  - destruct (strip v) as [|a r] eqn:E; [congruence|].
    cbn. now apply (strip_head v a r).
  - unfold strip in *. now apply rstrip_last.
  - destruct (strip v); [congruence|]. cbn [String.length]. lia.
Qed.

(** X20: The name that is kept is never empty, has no whitespace at either
    end, and has 1 to 50 characters. *)
Theorem name_validator_trims (v w : string) :
  UserBase_name v = Ok w ->
  w <> "" /\ not_space (str_head w) /\ not_space (str_last w) /\
  (1 <= String.length w <= 50)%nat.
Proof.
  intros H. destruct (UserBase_name_Ok v w H) as [-> [Hne Hlen]].
  destruct (strip_trimmed v Hne) as [Hh [Hl H1]].
  pose proof (strip_length v). repeat split; try assumption; lia.
Qed.

Lemma name_validator_trims_witness :
  UserBase_name "  John " = Ok "John" /\
  "John" <> "" /\ not_space (str_head "John") /\
  not_space (str_last "John") /\ (1 <= String.length "John" <= 50)%nat.
Proof.
  split; [reflexivity|].
  exact (name_validator_trims "  John " "John" eq_refl).
Defined.

(** X21: A name that was kept passes the validators again, unchanged: what is
    stored can be sent back as it is, on create and on update. *)
Theorem name_validator_idempotent (v w : string) :
  UserBase_name v = Ok w ->
  UserBase_name w = Ok w /\ UserUpdate_name (Some w) = Ok (Some w).
Proof.
  intros H. destruct (UserBase_name_Ok v w H) as [-> [Hne Hlen]].
  destruct (strip_trimmed v Hne) as [_ [_ H1]].
  pose proof (strip_length v) as Hle.
  assert (Hspace : str_forall char_isspace (strip v) = false).
  { destruct (str_forall char_isspace (strip v)) eqn:E; [|reflexivity].
    apply strip_empty_iff in E. rewrite strip_idem in E. congruence. }
  rewrite UserBase_name_eq, UserUpdate_name_eq, Hspace, strip_idem.
  rewrite (proj2 (Nat.leb_le 1 _) H1).
  rewrite (proj2 (Nat.leb_le _ 50)) by lia.
  split; reflexivity.
Qed.

Lemma name_validator_idempotent_witness :
  UserBase_name "John" = Ok "John" /\
  UserUpdate_name (Some "John") = Ok (Some "John").
Proof.
  exact (name_validator_idempotent "  John " "John" eq_refl).
Defined.

(** ** The whole table *)

(** X15: With no filter, nothing skipped and a limit that the table fits in,
    the page is the whole table, row for row, and the total is the number
    of its rows. *)
Theorem get_users_lists_everything (limit_ : Z) (db : Table) :
  count db <= limit_ ->
  UserListResponse.users (get_users 0 limit_ None None db) = db /\
  UserListResponse.total (get_users 0 limit_ None None db) = count db.
Proof.
  intros H. unfold get_users, all, limit, offset, count in *.
  cbn [str_truthy UserListResponse.users UserListResponse.total
       Z.to_nat skipn].
  split; [|reflexivity].
  destruct (Z.ltb_spec limit_ 0); [reflexivity|].
  apply firstn_all2. lia.
Qed.

Lemma get_users_lists_everything_witness :
  UserListResponse.users (get_users 0 100 None None multiple_users) =
    multiple_users /\
  UserListResponse.total (get_users 0 100 None None multiple_users) = 2.
Proof.
  apply (get_users_lists_everything 100 multiple_users).
  unfold count. simpl. lia.
Defined.
